(** * Feature-dynamics name codec, feature dictionaries and completeness filter

    A shallow embedding of
    [tsfresh/feature_dynamics_extraction/feature_dynamics_utils.py] and of the
    stage-1 completeness filter of
    [tsfresh/feature_dynamics_extraction/feature_dynamics_extraction.py].

    Python [str] values are modelled as [string]: a character stands for
    the code point of the same number, so the strings of the model are the
    Python strings whose code points all lie below 256. Python [int] is
    [Z], a raised exception the [Raise] branch of [result], and a [dict] a
    finite map. *)

From Stdlib Require Import ZArith QArith_base Ascii String List Bool Lia.
From Stdlib Require Import Decimal DecimalString DecimalPos DecimalZ.
From stdpp Require Import base option list gmap strings.

Local Open Scope Z_scope.

(** ** Exceptions *)

Inductive exn : Type :=
  | ValueError (msg : string)
  | TypeError (msg : string)
  | IndexError (msg : string).

Inductive result (A : Type) : Type :=
  | Ok (a : A)
  | Raise (e : exn).

Arguments Ok {A} a.
Arguments Raise {A} e.

Definition is_ValueError {A} (r : result A) : Prop :=
  ∃ msg, r = Raise (ValueError msg).

(** ** The Python string built-ins the module calls *)

Module PyStr.

(** [count] argument of [str.replace]: [None] replaces every occurrence. *)
Definition count_left (count : option nat) : bool :=
  match count with Some O => false | _ => true end.

Definition count_dec (count : option nat) : option nat :=
  match count with Some (S n) => Some n | c => c end.

(** [s.replace(old, new, count)] for a non-empty [old]: one scan from the
    left; at a match [new] is emitted and the [String.length old]
    characters of the match are skipped ([skip] counts the ones still to
    drop), so matches never overlap. *)
Fixpoint replace_scan (old new : string) (skip : nat) (count : option nat)
    (s : string) : string :=
  match s with
  | EmptyString => EmptyString
  | String c r =>
      match skip with
      | S k => replace_scan old new k count r
      | O =>
          if count_left count && String.prefix old s
          then new +:+ replace_scan old new (String.length old - 1)
                         (count_dec count) r
          else String c (replace_scan old new 0 count r)
      end
  end.

Definition replace (old new s : string) : string :=
  replace_scan old new 0 None s.

Definition replace_first (old new s : string) : string :=
  replace_scan old new 0 (Some 1%nat) s.

(** Prepend a character to the segment under construction. *)
Definition push (c : ascii) (segs : list string) : list string :=
  match segs with
  | h :: t => String c h :: t
  | [] => [String c EmptyString]
  end.

(** [s.split(sep)] for a non-empty [sep]: the same left-to-right scan; the
    result always has at least one segment. *)
Fixpoint split_scan (sep : string) (skip : nat) (s : string) : list string :=
  match s with
  | EmptyString => [EmptyString]
  | String c r =>
      match skip with
      | S k => split_scan sep k r
      | O =>
          if String.prefix sep s
          then EmptyString :: split_scan sep (String.length sep - 1) r
          else push c (split_scan sep 0 r)
      end
  end.

Definition split (sep s : string) : list string := split_scan sep 0 s.

(** [sep.join(parts)] *)
Definition join (sep : string) (parts : list string) : string :=
  String.concat sep parts.

(** [sub in s] *)
Fixpoint contains (sub s : string) : bool :=
  String.prefix sub s
  || match s with
     | EmptyString => false
     | String _ r => contains sub r
     end.

(** *** [int(s)] on text, base 10

    [int] reads an optional sign followed by decimal digits, a single
    underscore being allowed between two digits, and skips white space
    before and after the literal. The white space it skips is not that of
    [str.strip]: it is the ASCII characters 9 to 13 and 32 and, beyond
    ASCII, the Unicode white space, of which U+0085 and U+00A0 lie below
    code point 256. The separators 28 to 31, which [str.strip] removes, make
    [int] fail. Below code point 256 the only decimal digits are [0] to
    [9]. The interpreter's limit on the number of digits (a setting, 4300
    by default) is left out. *)

Definition is_space (c : ascii) : bool :=
  let n := N_of_ascii c in
  ((9 <=? n) && (n <=? 13) || (n =? 32) || (n =? 133) || (n =? 160))%N.

(** The text after the white space at its start. *)
Fixpoint skip_space (s : string) : string :=
  match s with
  | EmptyString => EmptyString
  | String c r => if is_space c then skip_space r else s
  end.

(** The text before the white space at its end. *)
Fixpoint drop_trailing_space (s : string) : string :=
  match s with
  | EmptyString => EmptyString
  | String c r =>
      match drop_trailing_space r with
      | EmptyString => if is_space c then EmptyString else String c EmptyString
      | r' => String c r'
      end
  end.

(** The value of a decimal digit, from its code point. *)
Definition digit_value (c : ascii) : option Z :=
  let n := Z.of_N (N_of_ascii c) in
  if (48 <=? n) && (n <=? 57) then Some (n - 48) else None.

(** Digits, with single underscores allowed between two digits. [prev_us]
    records that the previous character was an underscore. *)
Fixpoint digits_go (acc : Z) (prev_us : bool) (s : string) : option Z :=
  match s with
  | EmptyString => if prev_us then None else Some acc
  | String c r =>
      if Ascii.eqb c "_"
      then if prev_us then None else digits_go acc true r
      else match digit_value c with
           | Some d => digits_go (10 * acc + d) false r
           | None => None
           end
  end.

Definition unsigned (s : string) : option Z :=
  match s with
  | EmptyString => None
  | String c _ => if Ascii.eqb c "_" then None else digits_go 0 false s
  end.

(** [None] stands for the [ValueError] that [int] raises on text that is
    not an integer literal. *)
Definition int (s : string) : option Z :=
  match drop_trailing_space (skip_space s) with
  | String "-" r => Z.opp <$> unsigned r
  | String "+" r => unsigned r
  | t => unsigned t
  end.

(** [str(n)], which is also what an f-string writes for an [int]. *)
Definition str (n : Z) : string :=
  NilZero.string_of_int (Z.to_int n).

End PyStr.

(** ** The name codec *)

Definition clean_feature_timeseries_name
    (feature_timeseries_name : string) (window_length : Z) : string :=
  let ts_kind_token := "||" in
  let feature_timeseries_parameter_token := "|" in
  PyStr.replace "__" feature_timeseries_parameter_token
    (PyStr.replace_first "__" ts_kind_token feature_timeseries_name)
  +:+ "@window_" +:+ PyStr.str window_length.

Record fts_information : Type := FtsInformation {
  window_length : Z;
  fts_parts : list string
}.

(** The tokens of the part before the first double underscore, the window
    token still at the end. *)
Definition fts_tokens (full_feature_name : string) : list string :=
  let ts_kind_token := "||" in
  let param_token := "|" in
  let window_length_token := "@" in
  PyStr.split "__"
    (PyStr.replace window_length_token "__"
       (PyStr.replace param_token "__"
          (PyStr.replace ts_kind_token "__"
             (List.hd EmptyString (PyStr.split "__" full_feature_name))))).

Definition window_missing_msg : string :=
  "Window length information not found in feature time series name. Did you pass in a window length of zero?".

Definition one_part_msg (full_feature_name : string) : string :=
  "Splitting of columnname " +:+ full_feature_name
  +:+ " resulted in only one part.".

Definition parse_feature_timeseries_parts (full_feature_name : string)
    : result fts_information :=
  let fts_parts := fts_tokens full_feature_name in
  let last_token := List.last fts_parts EmptyString in
  if negb (PyStr.contains "window_" last_token)
  then Raise (ValueError window_missing_msg)
  else
    match PyStr.int (PyStr.replace "window_" "" last_token) with
    | None =>
        (* the message of [int], which goes on to quote the token *)
        Raise (ValueError "invalid literal for int() with base 10")
    | Some window_length =>
        let fts_parts := List.removelast fts_parts in
        if (length fts_parts =? 1)%nat
        then Raise (ValueError (one_part_msg full_feature_name))
        else Ok (FtsInformation window_length fts_parts)
    end.

Definition parse_feature_dynamics_parts (full_feature_name : string)
    : result (list string) :=
  let fd_parts := PyStr.split "__" full_feature_name in
  if (length fd_parts =? 1)%nat
  then Raise (ValueError (one_part_msg full_feature_name))
  else Ok fd_parts.

(** ** Feature dictionaries *)

(** The calculator catalogue [feature_calculators] and
    [get_config_from_string] live outside this module; they are taken as
    parameters. [has_calculator name] is [hasattr(feature_calculators, name)].
    [get_config_from_string parts] may raise; [Ok None] stands for a result
    that is false in a condition ([None]), [Ok (Some config)] for a non-empty
    parameter dictionary, compared with [==] when looked up in a list. *)
Section FeatureDictionary.
Context {config : Type} `{EqDecision config}.
Variable has_calculator : string → bool.
Variable get_config_from_string : list string → result (option config).

(** [window_length -> ts_kind -> feature_name -> params | None] *)
Local Abbreviation calculators := (gmap string (option (list config))).
Local Abbreviation feature_dict := (gmap Z (gmap string calculators)).

(** [feature_dictionary[window_length][ts_kind][feature_name]], when all
    three keys are present. *)
Definition lookup3 (feature_dictionary : feature_dict)
    (window_length : Z) (ts_kind feature_name : string)
    : option (option (list config)) :=
  feature_dictionary !! window_length ≫= λ kinds,
  kinds !! ts_kind ≫= λ calcs, calcs !! feature_name.

(** [feature_dictionary[window_length][ts_kind][feature_name] = entry] *)
Definition store (feature_dictionary : feature_dict)
    (window_length : Z) (ts_kind feature_name : string)
    (entry : option (list config)) : feature_dict :=
  let kinds := default ∅ (feature_dictionary !! window_length) in
  let calcs := default ∅ (kinds !! ts_kind) in
  <[window_length := <[ts_kind := <[feature_name := entry]> calcs]> kinds]>
    feature_dictionary.

(** The two [if ... not in ...: ... = {}] statements. *)
Definition ensure_kind (feature_dictionary : feature_dict)
    (window_length : Z) (ts_kind : string) : feature_dict :=
  let d1 :=
    match feature_dictionary !! window_length with
    | Some _ => feature_dictionary
    | None => <[window_length := ∅]> feature_dictionary
    end in
  let kinds := default ∅ (d1 !! window_length) in
  match kinds !! ts_kind with
  | Some _ => d1
  | None => <[window_length := <[ts_kind := ∅]> kinds]> d1
  end.

(** The dictionary is changed in place, so the function gives the
    dictionary as the call leaves it together with the outcome: [Ok ()]
    when it returns (it returns the same dictionary), or the exception. *)
Definition update_feature_dictionary (feature_dictionary : feature_dict)
    (window_length : Z) (feature_parts : list string)
    : feature_dict * result unit :=
  match feature_parts !! 0%nat, feature_parts !! 1%nat with
  | Some ts_kind, Some feature_name =>
      let d := ensure_kind feature_dictionary window_length ts_kind in
      if negb (has_calculator feature_name)
      then (d, Raise (ValueError ("Unknown feature name " +:+ feature_name)))
      else
        match get_config_from_string feature_parts with
        | Raise e => (d, Raise e)
        | Ok (Some config) =>
            match lookup3 d window_length ts_kind feature_name with
            | Some (Some params) =>
                if decide (config ∈ params) then (d, Ok ())
                else (store d window_length ts_kind feature_name
                        (Some (params ++ [config])), Ok ())
            | Some None =>
                (d, Raise (TypeError
                             "argument of type 'NoneType' is not iterable"))
            | None =>
                (store d window_length ts_kind feature_name (Some [config]),
                 Ok ())
            end
        | Ok None =>
            (store d window_length ts_kind feature_name None, Ok ())
        end
  | _, _ => (feature_dictionary, Raise (IndexError "list index out of range"))
  end.

(** One turn of the loop of [derive_features_dictionaries]; the names are
    strings by type, so the [isinstance] test always passes. *)
Definition derive_step (mappings : feature_dict * feature_dict)
    (full_feature_name : string) : result (feature_dict * feature_dict) :=
  let '(fts_mapping, fd_mapping) := mappings in
  match parse_feature_timeseries_parts full_feature_name with
  | Raise e => Raise e
  | Ok fts_information =>
      match update_feature_dictionary fts_mapping
              (window_length fts_information) (fts_parts fts_information) with
      | (_, Raise e) => Raise e
      | (fts_mapping, Ok _) =>
          match parse_feature_dynamics_parts full_feature_name with
          | Raise e => Raise e
          | Ok fd_parts =>
              match update_feature_dictionary fd_mapping
                      (window_length fts_information) fd_parts with
              | (_, Raise e) => Raise e
              | (fd_mapping, Ok _) => Ok (fts_mapping, fd_mapping)
              end
          end
      end
  end.

Fixpoint derive_loop (mappings : feature_dict * feature_dict)
    (feature_names : list string) : result (feature_dict * feature_dict) :=
  match feature_names with
  | [] => Ok mappings
  | full_feature_name :: rest =>
      match derive_step mappings full_feature_name with
      | Ok mappings' => derive_loop mappings' rest
      | Raise e => Raise e
      end
  end.

Definition derive_features_dictionaries (feature_names : list string)
    : result (feature_dict * feature_dict) :=
  derive_loop (∅, ∅) feature_names.

(** A sequence of calls on one dictionary, each call [(window_length,
    feature_parts)]; the caller keeps the dictionary whatever the outcome. *)
Definition run_updates (feature_dictionary : feature_dict)
    (calls : list (Z * list string)) : feature_dict :=
  foldl (λ d call, (update_feature_dictionary d call.1 call.2).1)
    feature_dictionary calls.

Definition dict_nodup (feature_dictionary : feature_dict) : Prop :=
  ∀ w k f params,
    lookup3 feature_dictionary w k f = Some (Some params) → NoDup params.

End FeatureDictionary.

(** A small catalogue and a parameter reader for concrete runs: the
    configuration of a name is the list of its parameter segments. *)
Definition example_has_calculator (feature_name : string) : bool :=
  bool_decide (feature_name ∈ ["mean"; "quantile"; "fft_coefficient"]).

Definition example_get_config (feature_parts : list string)
    : result (option (list string)) :=
  match drop 2 feature_parts with
  | [] => Ok None
  | params => Ok (Some params)
  end.

(** ** Stage-1 completeness filter *)

Section Completeness.
Context {id value : Type}.
(** [isnull] of pandas on one cell. *)
Variable isnull : value → bool.

(** [Series.unique()]: the distinct values in order of first appearance. *)
Fixpoint unique_go (seen l : list string) : list string :=
  match l with
  | [] => []
  | x :: t =>
      if decide (x ∈ seen) then unique_go seen t
      else x :: unique_go (x :: seen) t
  end.

Definition unique (l : list string) : list string := unique_go [] l.

(** [target_list = fts[fts[column_value].isnull()][column_kind].unique()]
    [fts = fts[~fts[column_kind].isin(target_list)]],
    the same two statements in both branches. *)
Definition drop_incomplete {R : Type} (kind : R → string) (val : R → value)
    (feature_timeseries : list R) : list R :=
  let target_list :=
    unique (kind <$> filter (λ r, isnull (val r) = true) feature_timeseries) in
  filter (λ r, kind r ∉ target_list) feature_timeseries.

(** A row of the unpivoted stage-1 result: the id is the pair
    [(original id, window index)]. *)
Record stage1_row : Type := Stage1Row {
  s1_id : id * Z;
  s1_kind : string;
  s1_value : value
}.

(** A row of the derived feature time series. *)
Record fts_row : Type := FtsRow {
  fts_id : id;
  fts_sort : Z;
  fts_kind : string;
  fts_value : value
}.

(** Renaming the kind and splitting the id into id and sort. *)
Definition flatten_row (window_length : Z) (r : stage1_row) : fts_row :=
  FtsRow (s1_id r).1 (s1_id r).2
    (clean_feature_timeseries_name (s1_kind r) window_length) (s1_value r).

(** The pandas branch filters, then renames. *)
Definition feature_timeseries_pandas (rows : list stage1_row)
    (window_length : Z) : list fts_row :=
  flatten_row window_length <$> drop_incomplete s1_kind s1_value rows.

(** The dask branch renames, then filters. *)
Definition feature_timeseries_dask (rows : list stage1_row)
    (window_length : Z) : list fts_row :=
  drop_incomplete fts_kind fts_value (flatten_row window_length <$> rows).

End Completeness.

(** ** The windowed view *)

(** Modelled from the spec: the constructor of [IterableSplitTsData], whose
    module [feature_dynamics_data.py] is not among the sources (only its
    unit tests are). The spec has it reject, with a value-domain error and at
    construction, a split size that is NaN, not an integer, not positive, or
    larger than the shortest series present. A split size is a Python number:
    a rational value (an [int] has denominator 1) or NaN. *)
Inductive number : Type :=
  | Num (q : Q)
  | NaN.

Definition is_integer (q : Q) : bool := (Qnum q mod Z.pos (Qden q) =? 0).

Definition integer_value (q : Q) : Z := Qnum q / Z.pos (Qden q).

Section WindowedView.
Context {id sample : Type}.

(** One series of the source dataset: id, kind, samples in sort order. *)
Record series : Type := Series {
  series_id : id;
  series_kind : string;
  series_samples : list sample
}.

Record split_ts_data : Type := SplitTsData {
  _root_ts_data : list series;
  _split_size : Z
}.

Definition IterableSplitTsData (root_ts_data : list series)
    (split_size : number) : result split_ts_data :=
  match split_size with
  | NaN => Raise (ValueError "split_size must be a positive integer")
  | Num q =>
      if negb (is_integer q)
      then Raise (ValueError "split_size must be a positive integer")
      else if integer_value q <=? 0
      then Raise (ValueError "split_size must be a positive integer")
      else if existsb
                (λ s, Z.of_nat (length (series_samples s)) <? integer_value q)
                root_ts_data
      then Raise (ValueError "split_size is larger than the shortest series")
      else Ok (SplitTsData root_ts_data (integer_value q))
  end.

End WindowedView.

(** ** Definitions used to state the properties *)

(** A pattern made of one character written twice (["__"], ["||"]), and a
    pattern of one character. *)
Definition dbl (a : ascii) : string := String a (String a "").

Definition single (a : ascii) : string := String a "".

(** The text starts with the pattern [dbl a]. *)
Definition heads2 (a : ascii) (s : string) : bool :=
  match s with
  | String c (String d _) => Ascii.eqb c a && Ascii.eqb d a
  | _ => false
  end.

(** The text starts with the character [a]. *)
Definition first_is (a : ascii) (s : string) : bool :=
  match s with
  | String c _ => Ascii.eqb c a
  | EmptyString => false
  end.

(** What the encoder is to write for the segments of a raw name: the
    two-character separator after the first segment, the one-character
    separator between the others. *)
Definition encode_segments (segs : list string) : string :=
  match segs with
  | [] => ""
  | [kind] => kind
  | kind :: rest => kind +:+ "||" +:+ PyStr.join "|" rest
  end.

Definition encode_body (name : string) : string :=
  PyStr.replace "__" "|" (PyStr.replace_first "__" "||" name).

Definition is_digit (c : ascii) : bool :=
  match PyStr.digit_value c with Some _ => true | None => false end.

Fixpoint all_digits (s : string) : bool :=
  match s with
  | EmptyString => true
  | String c r => is_digit c && all_digits r
  end.

Definition nonempty_segments (segs : list string) : Prop :=
  Forall (λ seg, seg ≠ "") segs.

Definition one_segment (s : string) : Prop := PyStr.split "__" s = [s].

(** [name.endswith("_")] *)
Fixpoint ends_with_underscore (s : string) : bool :=
  match s with
  | EmptyString => false
  | String c r =>
      match r with
      | EmptyString => Ascii.eqb c "_"
      | String _ _ => ends_with_underscore r
      end
  end.

(** A raw stage-1 name [<kind>__<calc_name>__<param>...]: at least a kind
    and a calculator name, no empty segment, none of the codec's own
    separator characters, and no underscore just before the window tag. *)
Definition valid_canonical_name (name : string) : bool :=
  let segs := PyStr.split "__" name in
  (2 <=? length segs)%nat
  && forallb (λ seg, negb (String.eqb seg "")) segs
  && negb (PyStr.contains "|" name)
  && negb (PyStr.contains "@" name)
  && negb (ends_with_underscore name).

(** [s.removeprefix(p)] when [s] starts with [p]. *)
Fixpoint strip_prefix (p s : string) : option string :=
  match p with
  | EmptyString => Some s
  | String a p' =>
      match s with
      | EmptyString => None
      | String b s' => if Ascii.eqb a b then strip_prefix p' s' else None
      end
  end.

(** A token of the form [window_<integer>], the integer being any text that
    [int] reads. *)
Definition matches_window_integer (token : string) : bool :=
  match strip_prefix "window_" token with
  | Some digits => bool_decide (is_Some (PyStr.int digits))
  | None => false
  end.

Definition last_token (full_feature_name : string) : string :=
  List.last (fts_tokens full_feature_name) EmptyString.

(** [s.isascii()]: every code point is below 128. On such text the outcome
    of [int] rests on the ASCII rules alone. *)
Fixpoint isascii (s : string) : bool :=
  match s with
  | EmptyString => true
  | String c r => (N_of_ascii c <? 128)%N && isascii r
  end.

(** The last fts token once each [window_] is deleted from it: the text
    handed to [int]. *)
Definition window_literal (full_feature_name : string) : string :=
  PyStr.replace "window_" "" (last_token full_feature_name).

(** The text starts with [window_] and no underscore comes next. *)
Definition window_here (s : string) : bool :=
  match strip_prefix "window_" s with
  | Some rest => negb (first_is "_" rest)
  | None => false
  end.

(** Somewhere in the text there is a [window_] that no underscore follows:
    the occurrences that splitting on the double underscore leaves whole. *)
Fixpoint window_text (s : string) : bool :=
  window_here s
  || match s with
     | EmptyString => false
     | String _ r => window_text r
     end.

(** A split size the spec rules out for a dataset: NaN, not an integer, not
    positive, or larger than the length of some series present. *)
Definition invalid_split_size {id sample : Type}
    (root_ts_data : list (@series id sample)) (split_size : number) : Prop :=
  match split_size with
  | NaN => True
  | Num q =>
      is_integer q = false
      ∨ (q <= 0)%Q
      ∨ ∃ s, s ∈ root_ts_data
             ∧ (inject_Z (Z.of_nat (length (series_samples s))) < q)%Q
  end.

(** ** Stage-2 completeness filter *)

(** The final table [X] of [extract_feature_dynamics], column by column:
    the name of a feature dynamic and its value for each id. *)
Section Stage2.
Context {value : Type}.
Variable isnull : value → bool.

(** [X.dropna(axis="columns", how="any")], the pandas branch. *)
Definition dropna_columns (X : list (string * list value))
    : list (string * list value) :=
  filter (λ col, existsb isnull col.2 = false) X.

(** [cols_to_keep = X.isna().compute().any() == False] *)
Definition cols_to_keep (X : list (string * list value)) : list bool :=
  (λ col, bool_decide (existsb isnull col.2 = false)) <$> X.

(** [X.loc[:, mask]] for a Boolean mask with one entry per column. *)
Fixpoint select_columns (X : list (string * list value)) (mask : list bool)
    : list (string * list value) :=
  match X, mask with
  | col :: X', keep :: mask' =>
      if keep then col :: select_columns X' mask' else select_columns X' mask'
  | _, _ => []
  end.

(** The dask branch. *)
Definition drop_columns_dask (X : list (string * list value))
    : list (string * list value) :=
  select_columns X (cols_to_keep X).

End Stage2.

(** The window lengths that the names of a list decode to. *)
Definition decoded_window_lengths (feature_names : list string) : gset Z :=
  list_to_set
    (omap (λ name,
             match parse_feature_timeseries_parts name with
             | Ok info => Some (window_length info)
             | Raise _ => None
             end) feature_names).

(** What a call stores for a calculator: [None] for a name without
    parameters, the one-element list otherwise. *)
Definition first_entry {config : Type} (cfg : option config)
    : option (list config) :=
  (λ c, [c]) <$> cfg.

Example clean_example :
  clean_feature_timeseries_name "temperature__mean__lag_1" 5
  = "temperature||mean|lag_1@window_5".
Proof. reflexivity. Qed.

Example parse_example :
  parse_feature_timeseries_parts "a||b|c@window_3__d__e"
  = Ok (FtsInformation 3 ["a"; "b"; "c"]).
Proof. reflexivity. Qed.

Example parse_negative :
  parse_feature_timeseries_parts "a||b@window_-3__d"
  = Ok (FtsInformation (-3) ["a"; "b"]).
Proof. reflexivity. Qed.

Example parse_infix :
  parse_feature_timeseries_parts "a||b@3window_"
  = Ok (FtsInformation 3 ["a"; "b"]).
Proof. reflexivity. Qed.

Example split_examples :
  PyStr.split "__" "a___b" = ["a"; "_b"]
  ∧ PyStr.split "__" "a____b" = ["a"; ""; "b"]
  ∧ PyStr.split "__" "" = [""]
  ∧ PyStr.split "__" "a__" = ["a"; ""]
  ∧ PyStr.int " 1_000 " = Some 1000
  ∧ PyStr.int "_5" = None
  ∧ PyStr.int "+07" = Some 7
  ∧ PyStr.int "- 3" = None
  ∧ PyStr.int "" = None
  ∧ PyStr.str (-12) = "-12" ∧ PyStr.str 0 = "0".
Proof. repeat split; reflexivity. Qed.

(** White space around a window length: [int] skips U+00A0 and U+0085 as
    it skips a blank, and fails on the separator 28. *)
Example int_white_space :
  PyStr.int (String (ascii_of_N 133) "3 ") = Some 3
  ∧ PyStr.int (String (ascii_of_N 28) "5") = None
  ∧ parse_feature_timeseries_parts
      ("a||b@window_3" +:+ String (ascii_of_N 160) "")
    = Ok (FtsInformation 3 ["a"; "b"])
  ∧ parse_feature_timeseries_parts
      ("a||b@window_" +:+ String (ascii_of_N 28) "5")
    = Raise (ValueError "invalid literal for int() with base 10").
Proof. repeat split; reflexivity. Qed.

(** ** Facts about the string built-ins *)

Lemma string_app_cons c (s t : string) : String c s +:+ t = String c (s +:+ t).
Proof. reflexivity. Qed.

Lemma string_app_nil_l (s : string) : "" +:+ s = s.
Proof. reflexivity. Qed.

Lemma string_app_nil_r (s : string) : s +:+ "" = s.
Proof.
  induction s as [|c s IH]; [done |]. by rewrite string_app_cons, IH.
Qed.

Lemma string_app_assoc (s t u : string) : (s +:+ t) +:+ u = s +:+ t +:+ u.
Proof.
  induction s as [|c s IH]; [done |]. by rewrite !string_app_cons, IH.
Qed.

Lemma split_scan_nonempty sep skip s : PyStr.split_scan sep skip s ≠ [].
Proof.
  revert skip. induction s as [|c r IH]; intros skip; [done |].
  cbn [PyStr.split_scan]. destruct skip as [|k]; [| apply IH].
  destruct (String.prefix sep (String c r)); [done |].
  unfold PyStr.push. by destruct (PyStr.split_scan sep 0 r).
Qed.

Lemma join_push sep c segs :
  segs ≠ [] → PyStr.join sep (PyStr.push c segs) = String c (PyStr.join sep segs).
Proof. destruct segs as [|h [|h' t]]; [done | done | done]. Qed.

Lemma join_empty_head sep segs :
  segs ≠ [] → PyStr.join sep ("" :: segs) = sep +:+ PyStr.join sep segs.
Proof. by destruct segs. Qed.

(** A pattern made of one character written twice (["__"], ["||"]). *)
Section Doubled.
Variable a : ascii.

Lemma prefix_dbl s : String.prefix (dbl a) s = heads2 a s.
Proof.
  destruct s as [|c [|d r]]; cbn.
  - done.
  - by destruct (ascii_dec a c).
  - destruct (ascii_dec a c) as [<-|Hc].
    + rewrite Ascii.eqb_refl. destruct (ascii_dec a d) as [<-|Hd].
      * rewrite ?Ascii.eqb_refl. by destruct r.
      * symmetry. apply andb_false_intro2. apply Ascii.eqb_neq. congruence.
    + symmetry. apply andb_false_intro1. apply Ascii.eqb_neq. congruence.
Qed.

Lemma heads2_hit r : heads2 a (String a (String a r)) = true.
Proof. cbn. by rewrite Ascii.eqb_refl. Qed.

Lemma heads2_true s : heads2 a s = true → ∃ r, s = String a (String a r).
Proof.
  destruct s as [|c [|d r]]; cbn; try done.
  intros [Hc Hd]%andb_true_iff.
  apply Ascii.eqb_eq in Hc, Hd. subst. by exists r.
Qed.

(** The scan either consumes a match or one character. *)
Lemma scan2_ind (P : string → Prop) :
  P "" →
  (∀ r, P r → P (String a (String a r))) →
  (∀ c r, heads2 a (String c r) = false → P r → P (String c r)) →
  ∀ s, P s.
Proof.
  intros Hnil Hhit Hmiss s.
  assert (P s ∧ ∀ c, P (String c s)) as [H _]; [| exact H].
  induction s as [|d r [IH1 IH2]].
  - split; [done |]. intros c. by apply Hmiss.
  - split; [apply IH2 |]. intros c.
    destruct (heads2 a (String c (String d r))) eqn:Hh.
    + destruct (heads2_true _ Hh) as [r' [= -> -> ->]]. by apply Hhit.
    + apply Hmiss; [done | apply IH2].
Qed.

Lemma replace_hit new r :
  PyStr.replace (dbl a) new (String a (String a r)) = new +:+ PyStr.replace (dbl a) new r.
Proof.
  unfold PyStr.replace. cbn [PyStr.replace_scan PyStr.count_left andb].
  rewrite prefix_dbl, heads2_hit. done.
Qed.

Lemma replace_miss new c r :
  heads2 a (String c r) = false →
  PyStr.replace (dbl a) new (String c r) = String c (PyStr.replace (dbl a) new r).
Proof.
  intros Hh. unfold PyStr.replace. cbn [PyStr.replace_scan PyStr.count_left andb].
  by rewrite prefix_dbl, Hh.
Qed.

Lemma replace_scan_exhausted old new s :
  PyStr.replace_scan old new 0 (Some 0%nat) s = s.
Proof. induction s as [|c r IH]; cbn; [done | by rewrite IH]. Qed.

Lemma replace_first_hit new r :
  PyStr.replace_first (dbl a) new (String a (String a r)) = new +:+ r.
Proof.
  unfold PyStr.replace_first. cbn [PyStr.replace_scan PyStr.count_left andb].
  rewrite prefix_dbl, heads2_hit. cbn. by rewrite replace_scan_exhausted.
Qed.

Lemma replace_first_miss new c r :
  heads2 a (String c r) = false →
  PyStr.replace_first (dbl a) new (String c r)
  = String c (PyStr.replace_first (dbl a) new r).
Proof.
  intros Hh. unfold PyStr.replace_first.
  cbn [PyStr.replace_scan PyStr.count_left andb].
  by rewrite prefix_dbl, Hh.
Qed.

Lemma split_hit r :
  PyStr.split (dbl a) (String a (String a r)) = "" :: PyStr.split (dbl a) r.
Proof.
  unfold PyStr.split. cbn [PyStr.split_scan].
  rewrite prefix_dbl, heads2_hit. done.
Qed.

Lemma split_miss c r :
  heads2 a (String c r) = false →
  PyStr.split (dbl a) (String c r) = PyStr.push c (PyStr.split (dbl a) r).
Proof.
  intros Hh. unfold PyStr.split. cbn [PyStr.split_scan].
  by rewrite prefix_dbl, Hh.
Qed.

Lemma split_nonempty s : PyStr.split (dbl a) s ≠ [].
Proof. apply split_scan_nonempty. Qed.

(** Replacing every match by [new] joins the segments with [new]. *)
Lemma replace_join new s :
  PyStr.replace (dbl a) new s = PyStr.join new (PyStr.split (dbl a) s).
Proof.
  induction s as [|r IH|c r Hh IH] using scan2_ind.
  - done.
  - rewrite replace_hit, split_hit, join_empty_head by apply split_nonempty.
    by rewrite IH.
  - rewrite replace_miss, split_miss, join_push by (done || apply split_nonempty).
    by rewrite IH.
Qed.

(** [sep.join(s.split(sep)) == s] *)
Lemma join_split s : PyStr.join (dbl a) (PyStr.split (dbl a) s) = s.
Proof.
  induction s as [|r IH|c r Hh IH] using scan2_ind.
  - done.
  - rewrite split_hit, join_empty_head by apply split_nonempty.
    by rewrite IH.
  - rewrite split_miss, join_push by (done || apply split_nonempty).
    by rewrite IH.
Qed.

(** *** The first character after a replacement *)

Lemma heads2_cons c s : heads2 a (String c s) = Ascii.eqb c a && first_is a s.
Proof. destruct s; cbn; [by rewrite andb_false_r | done]. Qed.

Lemma first_is_replace n new' r :
  n ≠ a →
  first_is a (PyStr.replace (dbl a) (String n new') r) = true → first_is a r = true.
Proof.
  intros Hn. destruct r as [|d r']; [done |].
  destruct (heads2 a (String d r')) eqn:Hh.
  - destruct (heads2_true _ Hh) as [r'' [= -> ->]].
    rewrite replace_hit. cbn. intros ?%Ascii.eqb_eq. congruence.
  - by rewrite replace_miss.
Qed.

Lemma first_is_replace_first n new' r :
  n ≠ a →
  first_is a (PyStr.replace_first (dbl a) (String n new') r) = true →
  first_is a r = true.
Proof.
  intros Hn. destruct r as [|d r']; [done |].
  destruct (heads2 a (String d r')) eqn:Hh.
  - destruct (heads2_true _ Hh) as [r'' [= -> ->]].
    rewrite replace_first_hit. cbn. intros ?%Ascii.eqb_eq. congruence.
  - by rewrite replace_first_miss.
Qed.

Lemma heads2_miss_replace n new' c r :
  n ≠ a → heads2 a (String c r) = false →
  heads2 a (String c (PyStr.replace (dbl a) (String n new') r)) = false.
Proof.
  intros Hn. rewrite !heads2_cons.
  destruct (Ascii.eqb c a); [cbn | done]. intros Hr.
  apply not_true_is_false. intros H%first_is_replace; congruence.
Qed.

Lemma heads2_miss_replace_first n new' c r :
  n ≠ a → heads2 a (String c r) = false →
  heads2 a (String c (PyStr.replace_first (dbl a) (String n new') r)) = false.
Proof.
  intros Hn. rewrite !heads2_cons.
  destruct (Ascii.eqb c a); [cbn | done]. intros Hr.
  apply not_true_is_false. intros H%first_is_replace_first; congruence.
Qed.

End Doubled.

(** *** The encoder, segment by segment *)

Lemma encode_segments_push c segs :
  segs ≠ [] → encode_segments (PyStr.push c segs) = String c (encode_segments segs).
Proof. by destruct segs as [|h [|h' t]]. Qed.

Lemma encode_body_hit r :
  encode_body (String "_" (String "_" r)) = "||" +:+ PyStr.replace "__" "|" r.
Proof.
  unfold encode_body. rewrite (replace_first_hit "_").
  change ("||" +:+ r) with (String "|" (String "|" r)).
  by rewrite !(replace_miss "_") by done.
Qed.

Lemma encode_body_miss c r :
  heads2 "_" (String c r) = false →
  encode_body (String c r) = String c (encode_body r).
Proof.
  intros Hh. unfold encode_body.
  rewrite (replace_first_miss "_") by done.
  rewrite (replace_miss "_"); [done |].
  by apply (heads2_miss_replace_first "_").
Qed.

Lemma encode_body_segments name :
  encode_body name = encode_segments (PyStr.split "__" name).
Proof.
  induction name as [|r IH|c r Hh IH] using (scan2_ind "_").
  - done.
  - rewrite encode_body_hit, (split_hit "_"), (replace_join "_").
    pose proof (split_nonempty "_" r) as Hne.
    unfold encode_segments. by destruct (PyStr.split (dbl "_") r).
  - rewrite encode_body_miss, (split_miss "_"), encode_segments_push by
      (done || apply split_nonempty).
    by rewrite IH.
Qed.

(** *** Patterns of one character, and strings a character is absent from *)

Section Single.
Variable a : ascii.

Lemma prefix_single s : String.prefix (single a) s = first_is a s.
Proof.
  destruct s as [|c r]; cbn; [done |].
  destruct (ascii_dec a c) as [<-|Hc].
  - rewrite Ascii.eqb_refl. by destruct r.
  - symmetry. apply Ascii.eqb_neq. congruence.
Qed.

Lemma contains_single_cons c r :
  PyStr.contains (single a) (String c r) = Ascii.eqb c a || PyStr.contains (single a) r.
Proof. cbn [PyStr.contains]. by rewrite prefix_single. Qed.

Lemma contains_single_app s t :
  PyStr.contains (single a) (s +:+ t)
  = PyStr.contains (single a) s || PyStr.contains (single a) t.
Proof.
  induction s as [|c r IH].
  - rewrite string_app_nil_l. cbn [PyStr.contains]. by rewrite prefix_single.
  - by rewrite string_app_cons, !contains_single_cons, IH, orb_assoc.
Qed.

Lemma replace_single_hit new r :
  PyStr.replace (single a) new (String a r) = new +:+ PyStr.replace (single a) new r.
Proof.
  unfold PyStr.replace. cbn [PyStr.replace_scan PyStr.count_left andb].
  rewrite prefix_single. cbn. by rewrite Ascii.eqb_refl.
Qed.

Lemma replace_single_miss new c r :
  c ≠ a →
  PyStr.replace (single a) new (String c r) = String c (PyStr.replace (single a) new r).
Proof.
  intros Hc. unfold PyStr.replace. cbn [PyStr.replace_scan PyStr.count_left andb].
  rewrite prefix_single. cbn. by apply Ascii.eqb_neq in Hc as ->.
Qed.

Lemma replace_single_app new s t :
  PyStr.replace (single a) new (s +:+ t)
  = PyStr.replace (single a) new s +:+ PyStr.replace (single a) new t.
Proof.
  induction s as [|c r IH]; [done |]. rewrite string_app_cons.
  destruct (ascii_dec c a) as [->|Hc].
  - by rewrite !replace_single_hit, IH, string_app_assoc.
  - by rewrite !replace_single_miss, IH by done.
Qed.

Lemma absent_cons c r :
  PyStr.contains (single a) (String c r) = false →
  c ≠ a ∧ PyStr.contains (single a) r = false.
Proof.
  rewrite contains_single_cons. intros [Hc Hr]%orb_false_iff.
  by apply Ascii.eqb_neq in Hc.
Qed.

(** A string without [a] has no match of a pattern that starts with [a]. *)
Lemma replace_scan_absent old' new count s :
  PyStr.contains (single a) s = false →
  PyStr.replace_scan (String a old') new 0 count s = s.
Proof.
  induction s as [|c r IH]; [done |]. intros [Hc Hr]%absent_cons.
  cbn [PyStr.replace_scan String.prefix].
  destruct (ascii_dec a c) as [->|_]; [done |].
  by rewrite andb_false_r, IH.
Qed.

Lemma replace_absent old' new s :
  PyStr.contains (single a) s = false →
  PyStr.replace (String a old') new s = s.
Proof. apply replace_scan_absent. Qed.

Lemma split_absent sep' s :
  PyStr.contains (single a) s = false →
  PyStr.split (String a sep') s = [s].
Proof.
  unfold PyStr.split.
  induction s as [|c r IH]; [done |]. intros [Hc Hr]%absent_cons.
  cbn [PyStr.split_scan String.prefix].
  destruct (ascii_dec a c) as [->|_]; [done |].
  by rewrite IH.
Qed.

Lemma first_is_absent s : PyStr.contains (single a) s = false → first_is a s = false.
Proof.
  destruct s as [|c r]; [done |]. intros [Hc _]%absent_cons.
  by apply Ascii.eqb_neq.
Qed.

Lemma first_is_app s t :
  first_is a (s +:+ t) = match s with "" => first_is a t | _ => first_is a s end.
Proof. by destruct s. Qed.

End Single.

(** *** Decimal text *)

Lemma is_digit_other c :
  is_digit c = true →
  PyStr.is_space c = false ∧ c ≠ "_"%char ∧ c ≠ "|"%char ∧ c ≠ "@"%char
  ∧ c ≠ "w"%char ∧ c ≠ "-"%char ∧ c ≠ "+"%char.
Proof.
  destruct c as [[] [] [] [] [] [] [] []]; cbn; intros H;
    try discriminate H; repeat split; done.
Qed.

Lemma all_digits_absent c s :
  is_digit c = false → all_digits s = true →
  PyStr.contains (single c) s = false.
Proof.
  intros Hc. induction s as [|d r IH]; [done |].
  cbn [all_digits]. intros [Hd Hr]%andb_true_iff.
  rewrite contains_single_cons, IH, orb_false_r by done.
  apply Ascii.eqb_neq. congruence.
Qed.

Lemma all_digits_uint d : all_digits (NilEmpty.string_of_uint d) = true.
Proof. induction d; cbn; done. Qed.

Lemma drop_trailing_space_digits s : all_digits s = true → PyStr.drop_trailing_space s = s.
Proof.
  induction s as [|c r IH]; [done |].
  cbn [all_digits]. intros [Hc Hr]%andb_true_iff.
  cbn [PyStr.drop_trailing_space]. rewrite IH by done.
  destruct (is_digit_other c Hc) as [-> _]. by destruct r.
Qed.

(** One step of the digit scan on a literal digit. *)
Ltac scan_digit :=
  cbn [NilEmpty.string_of_uint PyStr.digits_go];
  match goal with
  | |- context [PyStr.digit_value ?c] =>
      let v := eval vm_compute in (PyStr.digit_value c) in
      change (PyStr.digit_value c) with v;
      change (Ascii.eqb c "_") with false;
      cbv iota
  end.

Lemma digits_go_uint_acc d acc :
  PyStr.digits_go (Z.pos acc) false (NilEmpty.string_of_uint d)
  = Some (Z.pos (Pos.of_uint_acc d acc)).
Proof.
  revert acc. induction d; intros acc; [done | ..];
    scan_digit; cbn [Pos.of_uint_acc]; rewrite <- IHd; f_equal; lia.
Qed.

Lemma digits_go_uint d :
  PyStr.digits_go 0 false (NilEmpty.string_of_uint d)
  = Some (Z.of_N (Pos.of_uint d)).
Proof.
  induction d; [done | ..]; scan_digit; cbn [Pos.of_uint];
    [done | apply digits_go_uint_acc ..].
Qed.

Lemma unsigned_digits s :
  all_digits s = true → s ≠ "" → PyStr.unsigned s = PyStr.digits_go 0 false s.
Proof.
  destruct s as [|c r]; [done |]. intros [Hc _]%andb_true_iff _.
  destruct (is_digit_other c Hc) as (_ & Hus & _).
  unfold PyStr.unsigned. by apply Ascii.eqb_neq in Hus as ->.
Qed.

(** [int] on a non-empty run of digits is the plain digit scan. *)
Lemma int_digits s :
  all_digits s = true → s ≠ "" → PyStr.int s = PyStr.digits_go 0 false s.
Proof.
  intros Hs Hne. rewrite <- unsigned_digits by done. unfold PyStr.int.
  destruct s as [|c r]; [done |].
  pose proof Hs as [Hc Hr]%andb_true_iff.
  destruct (is_digit_other c Hc) as (Hsp & _).
  cbn [PyStr.skip_space]. rewrite Hsp, drop_trailing_space_digits by done.
  destruct c as [[] [] [] [] [] [] [] []]; done.
Qed.

Lemma string_of_uint_nonempty d : d ≠ Nil → NilEmpty.string_of_uint d ≠ "".
Proof. by destruct d. Qed.

Lemma str_pos p : PyStr.str (Z.pos p) = NilEmpty.string_of_uint (Pos.to_uint p).
Proof.
  unfold PyStr.str. cbn [Z.to_int NilZero.string_of_int].
  pose proof (Unsigned.to_uint_nonnil p). unfold NilZero.string_of_uint.
  by destruct (Pos.to_uint p).
Qed.

Lemma int_str_pos p : PyStr.int (PyStr.str (Z.pos p)) = Some (Z.pos p).
Proof.
  rewrite str_pos, int_digits, digits_go_uint, Unsigned.of_to.
  - done.
  - apply all_digits_uint.
  - apply string_of_uint_nonempty, Unsigned.to_uint_nonnil.
Qed.

(** [int(str(n)) == n] *)
Lemma int_str n : PyStr.int (PyStr.str n) = Some n.
Proof.
  destruct n as [|p|p].
  - done.
  - apply int_str_pos.
  - unfold PyStr.str. cbn [Z.to_int NilZero.string_of_int].
    pose proof (Unsigned.to_uint_nonnil p) as Hnil.
    assert (NilZero.string_of_uint (Pos.to_uint p)
            = NilEmpty.string_of_uint (Pos.to_uint p)) as ->.
    { unfold NilZero.string_of_uint. by destruct (Pos.to_uint p). }
    pose proof (all_digits_uint (Pos.to_uint p)) as Hd.
    pose proof (string_of_uint_nonempty _ Hnil) as Hne.
    unfold PyStr.int. cbn [PyStr.skip_space]. change (PyStr.is_space "-") with false.
    cbn [PyStr.drop_trailing_space]. rewrite drop_trailing_space_digits by done.
    destruct (NilEmpty.string_of_uint (Pos.to_uint p)) as [|c r] eqn:Hs; [done |].
    rewrite <- Hs, unsigned_digits, digits_go_uint, Unsigned.of_to by congruence.
    done.
Qed.

Lemma all_digits_str n : 0 ≤ n → all_digits (PyStr.str n) = true.
Proof.
  destruct n as [|p|p]; [done | | lia]. intros _.
  rewrite str_pos. apply all_digits_uint.
Qed.

(** *** Decoding what the encoder wrote *)

Lemma tail_push {c} segs : segs ≠ [] → tail (PyStr.push c segs) = tail segs.
Proof. by destruct segs. Qed.

Lemma split_starts_segment r :
  nonempty_segments (PyStr.split "__" r) →
  ∃ c r', r = String c r' ∧ heads2 "_" (String c r') = false.
Proof.
  destruct r as [|c r']; [by intros [? _]%Forall_cons |].
  destruct (heads2 "_" (String c r')) eqn:Hh; [| by eauto].
  destruct (heads2_true _ _ Hh) as [r'' [= -> ->]].
  rewrite (split_hit "_"). by intros [? _]%Forall_cons.
Qed.

Lemma params_first_not_pipe r t :
  nonempty_segments (PyStr.split "__" r) →
  PyStr.contains "|" r = false →
  first_is "|" (PyStr.replace "__" "|" r +:+ t) = false.
Proof.
  intros (c & r' & -> & Hh)%split_starts_segment [Hc _]%absent_cons.
  rewrite (replace_miss "_") by done. cbn. by apply Ascii.eqb_neq.
Qed.

Lemma heads2_pipe_other c s : c ≠ "|"%char → heads2 "|" (String c s) = false.
Proof. intros Hc. rewrite heads2_cons. by apply Ascii.eqb_neq in Hc as ->. Qed.

(** After the first separator, the two decoder substitutions undo the
    encoder's. *)
Lemma decode_params r t :
  PyStr.contains "|" r = false → PyStr.contains "|" t = false →
  nonempty_segments (tail (PyStr.split "__" r)) →
  PyStr.replace "|" "__"
    (PyStr.replace "||" "__" (PyStr.replace "__" "|" r +:+ t))
  = r +:+ t.
Proof.
  intros Hr Ht. induction r as [|r IH|c r Hh IH] using (scan2_ind "_"); intros Hs.
  - change (PyStr.replace "__" "|" "") with "". rewrite string_app_nil_l.
    by rewrite (replace_absent "|" "|"), (replace_absent "|" "") by done.
  - rewrite (split_hit "_") in Hs. cbn [tail] in Hs.
    apply absent_cons in Hr as [_ [_ Hr]%absent_cons].
    rewrite (replace_hit "_"), string_app_assoc, string_app_cons, string_app_nil_l.
    rewrite (replace_miss "|"), (replace_single_hit "|").
    + unfold single, dbl in *. rewrite IH; [done | done |].
      destruct (PyStr.split "__" r); [done |].
      by apply Forall_cons in Hs as [_ ?].
    + rewrite heads2_cons. by rewrite params_first_not_pipe.
  - rewrite (split_miss "_"), tail_push in Hs by (done || apply split_nonempty).
    apply absent_cons in Hr as [Hc Hr].
    rewrite (replace_miss "_"), string_app_cons by done.
    rewrite (replace_miss "|"), (replace_single_miss "|")
      by (done || by apply heads2_pipe_other).
    unfold single, dbl in *. by rewrite IH.
Qed.

Lemma decode_body name t :
  PyStr.contains "|" name = false → PyStr.contains "|" t = false →
  nonempty_segments (tail (PyStr.split "__" name)) →
  PyStr.replace "|" "__" (PyStr.replace "||" "__" (encode_body name +:+ t))
  = name +:+ t.
Proof.
  intros Hr Ht.
  induction name as [|r IH|c r Hh IH] using (scan2_ind "_"); intros Hs.
  - change (encode_body "") with "". rewrite string_app_nil_l.
    by rewrite (replace_absent "|" "|"), (replace_absent "|" "") by done.
  - rewrite (split_hit "_") in Hs. cbn [tail] in Hs.
    apply absent_cons in Hr as [_ [_ Hr]%absent_cons].
    rewrite encode_body_hit, string_app_assoc, !string_app_cons, string_app_nil_l.
    rewrite (replace_hit "|"), (replace_single_app "|").
    unfold single, dbl in *. rewrite decode_params; [done | done | done |].
    destruct (PyStr.split "__" r); [done |]. by apply Forall_cons in Hs as [_ ?].
  - rewrite (split_miss "_"), tail_push in Hs by (done || apply split_nonempty).
    apply absent_cons in Hr as [Hc Hr].
    rewrite encode_body_miss, string_app_cons by done.
    rewrite (replace_miss "|"), (replace_single_miss "|")
      by (done || by apply heads2_pipe_other).
    unfold single, dbl in *. by rewrite IH.
Qed.

(** *** Text without a double underscore *)

Lemma one_segment_cons c s :
  heads2 "_" (String c s) = false → one_segment s → one_segment (String c s).
Proof.
  unfold one_segment. intros Hh Hs. rewrite (split_miss "_") by done.
  unfold dbl. by rewrite Hs.
Qed.

Lemma first_is_params_app r t :
  first_is "_" t = false →
  first_is "_" (PyStr.replace "__" "|" r +:+ t) = true → first_is "_" r = true.
Proof.
  intros Ht. rewrite first_is_app.
  destruct (PyStr.replace "__" "|" r) eqn:Hr; [congruence |].
  rewrite <- Hr. by apply first_is_replace.
Qed.

Lemma first_is_body_app r t :
  first_is "_" t = false →
  first_is "_" (encode_body r +:+ t) = true → first_is "_" r = true.
Proof.
  intros Ht. rewrite first_is_app. unfold encode_body.
  destruct (PyStr.replace "__" "|" _) eqn:Hr; [congruence |].
  rewrite <- Hr. intros H%first_is_replace; [| done].
  by apply first_is_replace_first in H.
Qed.

Lemma one_segment_params r t :
  one_segment t → first_is "_" t = false →
  one_segment (PyStr.replace "__" "|" r +:+ t).
Proof.
  intros Ht Hf. induction r as [|r IH|c r Hh IH] using (scan2_ind "_").
  - done.
  - rewrite (replace_hit "_"), string_app_assoc, string_app_cons, string_app_nil_l.
    apply one_segment_cons; [by rewrite heads2_cons | done].
  - rewrite (replace_miss "_"), string_app_cons by done.
    apply one_segment_cons; [| done].
    rewrite heads2_cons in Hh |- *.
    destruct (Ascii.eqb c "_"); [cbn in * | done].
    apply not_true_is_false. intros H%first_is_params_app; congruence.
Qed.

Lemma one_segment_body name t :
  one_segment t → first_is "_" t = false →
  one_segment (encode_body name +:+ t).
Proof.
  intros Ht Hf. induction name as [|r IH|c r Hh IH] using (scan2_ind "_").
  - done.
  - rewrite encode_body_hit, string_app_assoc, !string_app_cons, string_app_nil_l.
    do 2 (apply one_segment_cons; [by rewrite heads2_cons |]).
    by apply one_segment_params.
  - rewrite encode_body_miss, string_app_cons by done.
    apply one_segment_cons; [| done].
    rewrite heads2_cons in Hh |- *.
    destruct (Ascii.eqb c "_"); [cbn in * | done].
    apply not_true_is_false. intros H%first_is_body_app; congruence.
Qed.

Lemma push_app c (segs more : list string) :
  segs ≠ [] → PyStr.push c (segs ++ more) = PyStr.push c segs ++ more.
Proof. by destruct segs. Qed.

(** A separator appended to text that does not end in an underscore
    starts a new segment. *)
Lemma split_app_sep s w :
  ends_with_underscore s = false → one_segment w →
  PyStr.split "__" (s +:+ "__" +:+ w) = PyStr.split "__" s ++ [w].
Proof.
  intros Hs Hw.
  assert (PyStr.split "__" ("__" +:+ w) = [""; w]) as Htl.
  { change ("__" +:+ w) with (String "_" (String "_" w)).
    rewrite (split_hit "_"). unfold dbl. by rewrite Hw. }
  remember ("__" +:+ w) as tl eqn:Heq. clear Heq.
  induction s as [|r IH|c r Hh IH] using (scan2_ind "_").
  - by rewrite string_app_nil_l, Htl.
  - rewrite !string_app_cons, !(split_hit "_"). unfold dbl in *.
    rewrite IH; [done |]. by destruct r.
  - rewrite string_app_cons, !(split_miss "_").
    + unfold dbl in *.
      rewrite IH, push_app; [done | apply split_nonempty |]. by destruct r.
    + done.
    + rewrite heads2_cons in Hh |- *. destruct r as [|d r']; [| done].
      cbn in Hs. by rewrite Hs.
Qed.

(** *** The window tag *)

Lemma window_token_one_segment ds :
  all_digits ds = true → one_segment ("window_" +:+ ds).
Proof.
  intros Hd. rewrite !string_app_cons, string_app_nil_l.
  pose proof (all_digits_absent "_" ds eq_refl Hd) as Hus.
  repeat (apply one_segment_cons;
          [rewrite heads2_cons; first [done | by rewrite first_is_absent] |]).
  by apply (split_absent "_" "_").
Qed.

Lemma window_tag_one_segment ds :
  all_digits ds = true → one_segment ("@window_" +:+ ds).
Proof.
  intros Hd. change ("@window_" +:+ ds) with (String "@" ("window_" +:+ ds)).
  apply one_segment_cons; [by rewrite heads2_cons |].
  by apply window_token_one_segment.
Qed.

Lemma window_tag_absent c ds :
  is_digit c = false → PyStr.contains (single c) "window_" = false →
  all_digits ds = true → PyStr.contains (single c) ("window_" +:+ ds) = false.
Proof.
  intros Hc Hw Hd. by rewrite contains_single_app, Hw, all_digits_absent.
Qed.

Lemma window_token_contains ds : PyStr.contains "window_" ("window_" +:+ ds) = true.
Proof. by destruct ds. Qed.

Lemma window_token_digits ds :
  all_digits ds = true → PyStr.replace "window_" "" ("window_" +:+ ds) = ds.
Proof.
  intros Hd.
  assert (PyStr.replace "window_" "" ("window_" +:+ ds)
          = PyStr.replace "window_" "" ds) as -> by by destruct ds.
  apply (replace_absent "w"). by apply all_digits_absent.
Qed.

(** *** Canonical raw names *)

Lemma forallb_nonempty segs :
  forallb (λ seg, negb (String.eqb seg "")) segs = true → nonempty_segments segs.
Proof.
  induction segs as [|h t IH]; cbn; [by constructor |].
  intros [Hh Ht]%andb_true_iff. constructor; [| by apply IH].
  intros ->. done.
Qed.

Lemma nonempty_segments_tail segs :
  nonempty_segments segs → nonempty_segments (tail segs).
Proof. destruct segs; [done |]. by intros [_ ?]%Forall_cons. Qed.

Section Encoded.
Variables (name ds : string).
Hypothesis Hpipe : PyStr.contains "|" name = false.
Hypothesis Hat : PyStr.contains "@" name = false.
Hypothesis Hend : ends_with_underscore name = false.
Hypothesis Hsegs : nonempty_segments (tail (PyStr.split "__" name)).
Hypothesis Hds : all_digits ds = true.

Lemma fts_tokens_encoded :
  fts_tokens (encode_body name +:+ "@window_" +:+ ds)
  = PyStr.split "__" name ++ ["window_" +:+ ds].
Proof.
  unfold fts_tokens.
  pose proof (window_tag_one_segment ds Hds) as Htag.
  rewrite (one_segment_body name _ Htag) by done. cbn [hd].
  rewrite decode_body; [| done | | done].
  - rewrite (replace_single_app "@"), (replace_absent "@" "") by done.
    rewrite string_app_cons, (replace_single_hit "@").
    rewrite (replace_absent "@" "") by by apply window_tag_absent.
    apply split_app_sep; [done |]. by apply window_token_one_segment.
  - change ("@window_" +:+ ds) with (String "@" ("window_" +:+ ds)).
    rewrite (contains_single_cons "|"). by apply window_tag_absent.
Qed.

Lemma parse_encoded z :
  PyStr.int ds = Some z →
  parse_feature_timeseries_parts (encode_body name +:+ "@window_" +:+ ds)
  = if (length (PyStr.split "__" name) =? 1)%nat
    then Raise (ValueError
                  (one_part_msg (encode_body name +:+ "@window_" +:+ ds)))
    else Ok (FtsInformation z (PyStr.split "__" name)).
Proof.
  intros Hz. unfold parse_feature_timeseries_parts.
  rewrite fts_tokens_encoded, last_last, removelast_last.
  by rewrite window_token_contains, window_token_digits, Hz.
Qed.

End Encoded.

(** ** The claims about the codec *)

(** C7. The encoder writes the segments of the raw name with ["||"] after
    the first one and ["|"] between the others, then the tag
    ["@window_<window_length>"]; the raw name is its segments joined by the
    double underscore. On ["temperature__mean__lag_1"] and [5] the result is
    ["temperature||mean|lag_1@window_5"]. *)
Theorem clean_feature_timeseries_name_segments :
  (∀ name wl,
     clean_feature_timeseries_name name wl
     = encode_segments (PyStr.split "__" name) +:+ "@window_" +:+ PyStr.str wl
     ∧ PyStr.join "__" (PyStr.split "__" name) = name)
  ∧ clean_feature_timeseries_name "temperature__mean__lag_1" 5
    = "temperature||mean|lag_1@window_5".
Proof.
  split; [| reflexivity]. intros name wl. split; [| apply (join_split "_")].
  unfold clean_feature_timeseries_name. fold (encode_body name).
  by rewrite encode_body_segments.
Qed.

(** C1. Round trip: for a valid canonical name and a positive window
    length [N], decoding the encoded name gives window length [N] and the
    double-underscore segments of the name, and encoding these again gives
    the same string. *)
Theorem codec_round_trip (name : string) (N : Z) :
  valid_canonical_name name = true → 0 < N →
  ∃ info,
    parse_feature_timeseries_parts (clean_feature_timeseries_name name N)
    = Ok info
    ∧ window_length info = N
    ∧ fts_parts info = PyStr.split "__" name
    ∧ clean_feature_timeseries_name
        (PyStr.join "__" (fts_parts info)) (window_length info)
      = clean_feature_timeseries_name name N.
Proof.
  unfold valid_canonical_name.
  intros ((((Hlen & Hne)%andb_true_iff & Hp%negb_true_iff)%andb_true_iff
            & Ha%negb_true_iff)%andb_true_iff & He%negb_true_iff)%andb_true_iff HN.
  exists (FtsInformation N (PyStr.split "__" name)).
  split; [| repeat split; cbn [fts_parts window_length];
            by rewrite (join_split "_")].
  unfold clean_feature_timeseries_name. fold (encode_body name).
  rewrite (parse_encoded name _ Hp Ha He) with (z := N).
  - apply Nat.leb_le in Hlen.
    destruct (Nat.eqb_spec (length (PyStr.split "__" name)) 1); [lia | done].
  - by apply nonempty_segments_tail, forallb_nonempty.
  - apply all_digits_str. lia.
  - apply int_str.
Qed.

Lemma codec_round_trip_witness :
  ∃ info,
    parse_feature_timeseries_parts
      (clean_feature_timeseries_name "temperature__mean__lag_1" 5) = Ok info
    ∧ window_length info = 5
    ∧ fts_parts info = PyStr.split "__" "temperature__mean__lag_1"
    ∧ clean_feature_timeseries_name
        (PyStr.join "__" (fts_parts info)) (window_length info)
      = clean_feature_timeseries_name "temperature__mean__lag_1" 5.
Proof. apply (codec_round_trip "temperature__mean__lag_1" 5); [reflexivity | lia]. Defined.

(** *** Where the text [window_] of a token comes from *)

Lemma prefix_strip_prefix p s :
  String.prefix p s = true ↔ is_Some (strip_prefix p s).
Proof.
  revert s. induction p as [|a p IH]; intros s.
  - destruct s; cbn; (split; [by eauto | done]).
  - destruct s as [|b s]; cbn; [split; [done | by intros [? ?]] |].
    destruct (ascii_dec a b) as [<-|Hab].
    + by rewrite Ascii.eqb_refl.
    + apply Ascii.eqb_neq in Hab as ->. split; [done | by intros [? ?]].
Qed.

Lemma strip_prefix_app p q s :
  strip_prefix (p +:+ q) s = strip_prefix p s ≫= strip_prefix q.
Proof.
  revert s. induction p as [|a p IH]; intros s; [done |].
  rewrite string_app_cons. cbn. destruct s as [|b s]; [done |].
  by destruct (Ascii.eqb a b).
Qed.

Lemma window_here_prefix s : window_here s = true → String.prefix "window_" s = true.
Proof.
  unfold window_here. intros H. apply prefix_strip_prefix.
  by destruct (strip_prefix "window_" s).
Qed.

Lemma window_text_contains s :
  window_text s = true → PyStr.contains "window_" s = true.
Proof.
  induction s as [|c r IH]; cbn [window_text PyStr.contains].
  - rewrite orb_false_r. intros H%window_here_prefix. by rewrite H.
  - intros [H%window_here_prefix | H]%orb_true_iff; [by rewrite H |].
    rewrite IH by done. apply orb_true_r.
Qed.

Lemma window_text_cons c r : window_text r = true → window_text (String c r) = true.
Proof. intros H. cbn [window_text]. rewrite H. apply orb_true_r. Qed.

Lemma window_here_underscore s : window_here (String "_" s) = false.
Proof. done. Qed.

(** A segment of the split is read off the text character by character. *)
Lemma split_head_cons r a h tl :
  PyStr.split "__" r = String a h :: tl →
  ∃ r', r = String a r' ∧ heads2 "_" (String a r') = false
        ∧ PyStr.split "__" r' = h :: tl.
Proof.
  destruct r as [|e r']; [done |].
  destruct (heads2 "_" (String e r')) eqn:Hh.
  - destruct (heads2_true _ _ Hh) as [r'' [= -> ->]]. by rewrite (split_hit "_").
  - rewrite (split_miss "_") by done.
    pose proof (split_nonempty "_" r') as Hne.
    destruct (PyStr.split (dbl "_") r') as [|h' tl'] eqn:Hs; [done |].
    cbn. intros [= -> -> ->]. by exists r'.
Qed.

Lemma split_head_strip p r h tl rest :
  PyStr.split "__" r = h :: tl → strip_prefix p h = Some rest →
  ∃ r', strip_prefix p r = Some r' ∧ PyStr.split "__" r' = rest :: tl.
Proof.
  revert r h. induction p as [|a p IH]; intros r h Hs Hp.
  - injection Hp as <-. by exists r.
  - destruct h as [|b h]; [done |]. cbn in Hp.
    destruct (Ascii.eqb_spec a b) as [<-|]; [| done].
    apply split_head_cons in Hs as (r' & -> & _ & Hs).
    destruct (IH _ _ Hs Hp) as (r'' & Hr & Hs'). exists r''.
    cbn. by rewrite Ascii.eqb_refl.
Qed.

Lemma window_here_segment c r h tl :
  PyStr.split "__" r = h :: tl →
  String.prefix "window_" (String c h) = true → window_here (String c r) = true.
Proof.
  intros Hs [rest Hp]%prefix_strip_prefix. unfold window_here.
  change "window_" with (String "w" ("indow" +:+ "_")) in *.
  cbn [strip_prefix] in Hp |- *.
  destruct (Ascii.eqb "w" c); [| done].
  rewrite strip_prefix_app in Hp |- *.
  destruct (strip_prefix "indow" h) as [mid|] eqn:Hm; [| done].
  destruct (split_head_strip _ _ _ _ _ Hs Hm) as (r1 & -> & Hs1).
  cbn [mbind option_bind strip_prefix] in Hp |- *.
  destruct mid as [|u mid]; [done |].
  destruct (Ascii.eqb_spec "_" u) as [<-|]; [| done]. injection Hp as ->.
  apply split_head_cons in Hs1 as (r2 & -> & Hh & _).
  rewrite heads2_cons in Hh. rewrite Ascii.eqb_refl in Hh |- *.
  cbn [andb] in Hh. by rewrite Hh.
Qed.

(** A token that contains [window_] shows in the text that was split. *)
Lemma token_window_text y t :
  t ∈ PyStr.split "__" y → PyStr.contains "window_" t = true →
  window_text y = true.
Proof.
  revert t. induction y as [|r IH|c r Hh IH] using (scan2_ind "_"); intros t.
  - by intros ->%list_elem_of_singleton.
  - rewrite (split_hit "_"). intros [-> | Ht]%elem_of_cons Hc; [done |].
    do 2 apply window_text_cons. by apply (IH t).
  - rewrite (split_miss "_") by done. unfold dbl in *.
    pose proof (split_nonempty "_" r) as Hne. unfold dbl in Hne.
    destruct (PyStr.split "__" r) as [|h tl] eqn:Hs; [done |]. cbn [PyStr.push].
    intros [-> | Ht]%elem_of_cons Hc.
    + cbn [PyStr.contains] in Hc. apply orb_true_iff in Hc as [Hp | Hc].
      * cbn [window_text]. by rewrite (window_here_segment c r h tl).
      * apply window_text_cons, (IH h); [by left | done].
    + apply window_text_cons, (IH t); [by right | done].
Qed.

(** The segment before the first double underscore is a prefix of the name. *)
Lemma contains_window_hd_split s :
  PyStr.contains "window_" (List.hd "" (PyStr.split "__" s)) = true →
  PyStr.contains "window_" s = true.
Proof.
  induction s as [|r IH|c r Hh IH] using (scan2_ind "_").
  - done.
  - by rewrite (split_hit "_").
  - rewrite (split_miss "_") by done.
    pose proof (split_nonempty "_" r) as Hne. unfold dbl in *.
    destruct (PyStr.split "__" r) as [|h tl] eqn:Hs; [done |].
    cbn [PyStr.push hd] in *. cbn [PyStr.contains].
    intros [Hp | Hc]%orb_true_iff; [| by rewrite IH, orb_true_r].
    apply prefix_strip_prefix in Hp as [rest Hp].
    assert (PyStr.split "__" (String c r) = String c h :: tl) as Hs'.
    { rewrite (split_miss "_") by done. unfold dbl. by rewrite Hs. }
    destruct (split_head_strip _ _ _ _ _ Hs' Hp) as (r' & Hr & _).
    assert (String.prefix "window_" (String c r) = true) as ->; [| done].
    apply prefix_strip_prefix. by rewrite Hr.
Qed.

(** Replacing a separator by the double underscore creates no [window_]
    that splitting leaves whole. *)
Section ReplaceByUnderscores.
Variable old : string.

Local Abbreviation rep := (PyStr.replace_scan old "__" 0 None).

Lemma rep_cons c r :
  rep (String c r) = String c (rep r)
  ∨ ∃ t, rep (String c r) = String "_" (String "_" t).
Proof.
  cbn [PyStr.replace_scan PyStr.count_left andb].
  destruct (String.prefix old (String c r)); [right | by left]. by eexists.
Qed.

Lemma rep_letter r d t :
  rep r = String d t → d ≠ "_"%char → ∃ r', r = String d r' ∧ t = rep r'.
Proof.
  destruct r as [|c r']; [done |].
  destruct (rep_cons c r') as [-> | [t' ->]].
  - intros [= -> <-] _. by exists r'.
  - by intros [= <- <-].
Qed.

Lemma rep_underscore r t :
  rep r = String "_" t → first_is "_" t = false →
  ∃ r', r = String "_" r' ∧ t = rep r'.
Proof.
  destruct r as [|c r']; [done |].
  destruct (rep_cons c r') as [-> | [t' ->]].
  - intros [= -> <-] _. by exists r'.
  - by intros [= <-].
Qed.

Lemma rep_first_underscore r :
  first_is "_" r = true → first_is "_" (rep r) = true.
Proof.
  destruct r as [|c r']; [done |].
  by destruct (rep_cons c r') as [-> | [t' ->]].
Qed.

Lemma strip_prefix_rep p r rest :
  PyStr.contains "_" p = false → strip_prefix p (rep r) = Some rest →
  ∃ r', strip_prefix p r = Some r' ∧ rest = rep r'.
Proof.
  revert r. induction p as [|a p IH]; intros r Hp Hs.
  - injection Hs as <-. by exists r.
  - apply (absent_cons "_") in Hp as [Ha Hp].
    destruct (rep r) as [|b y] eqn:Hr; [done |]. cbn in Hs.
    destruct (Ascii.eqb_spec a b) as [<-|]; [| done].
    apply rep_letter in Hr as (r' & -> & ->); [| done].
    destruct (IH r' Hp Hs) as (r'' & Hr' & ->). exists r''.
    cbn. by rewrite Ascii.eqb_refl.
Qed.

Lemma window_here_rep c r :
  window_here (String c (rep r)) = true → window_here (String c r) = true.
Proof.
  unfold window_here.
  change "window_" with (String "w" ("indow" +:+ "_")).
  cbn [strip_prefix].
  destruct (Ascii.eqb "w" c); [| done].
  rewrite !strip_prefix_app.
  destruct (strip_prefix "indow" (rep r)) as [mid|] eqn:Hm; [| done].
  apply strip_prefix_rep in Hm as (r1 & -> & ->); [| done].
  cbn [mbind option_bind strip_prefix].
  destruct (rep r1) as [|u y] eqn:Hr1; [done |].
  destruct (Ascii.eqb_spec "_" u) as [<-|]; [| done].
  intros Hf%negb_true_iff.
  apply rep_underscore in Hr1 as (r2 & -> & ->); [| done].
  rewrite Ascii.eqb_refl. apply negb_true_iff, not_true_is_false.
  intros H%rep_first_underscore. congruence.
Qed.

Lemma window_text_scan k s :
  window_text (PyStr.replace_scan old "__" k None s) = true →
  window_text s = true.
Proof.
  revert k. induction s as [|c r IH]; intros k; [done |].
  cbn [PyStr.replace_scan PyStr.count_left andb PyStr.count_dec].
  destruct k as [|k].
  - destruct (String.prefix old (String c r)).
    + change ("__" +:+ ?y) with (String "_" (String "_" y)).
      cbn [window_text]. rewrite !window_here_underscore. cbn [orb].
      intros H%IH. by apply window_text_cons.
    + cbn [window_text].
      intros [H%window_here_rep | H%IH]%orb_true_iff; [by rewrite H |].
      rewrite H. apply orb_true_r.
  - intros H%IH. by apply window_text_cons.
Qed.

Lemma window_text_replace s :
  window_text (PyStr.replace old "__" s) = true → window_text s = true.
Proof. apply window_text_scan. Qed.

End ReplaceByUnderscores.

Lemma last_elem_of {A} (l : list A) d : l ≠ [] → List.last l d ∈ l.
Proof.
  induction l as [|x [|y l] IH]; [done | by left |]. intros _.
  right. by apply IH.
Qed.

(** A name without the text [window_] has none in its last token. *)
Lemma last_token_window full_feature_name :
  PyStr.contains "window_" (last_token full_feature_name) = true →
  PyStr.contains "window_" full_feature_name = true.
Proof.
  intros Hc. apply contains_window_hd_split, window_text_contains.
  do 3 eapply window_text_replace.
  eapply token_window_text; [| exact Hc].
  apply last_elem_of, split_nonempty.
Qed.

(** Outside the canonical names the round trip is lost: a separator
    character in the kind, an empty parameter segment, or an underscore
    before the tag. *)
Example round_trip_limits :
  parse_feature_timeseries_parts (clean_feature_timeseries_name "a|b__mean" 5)
  = Ok (FtsInformation 5 ["a"; "b"; "mean"])
  ∧ PyStr.split "__" "a__b____c" = ["a"; "b"; ""; "c"]
  ∧ parse_feature_timeseries_parts (clean_feature_timeseries_name "a__b____c" 5)
    = Ok (FtsInformation 5 ["a"; "b"; "c"])
  ∧ parse_feature_timeseries_parts (clean_feature_timeseries_name "a__b_" 5)
    = Raise (ValueError "invalid literal for int() with base 10").
Proof. repeat split; reflexivity. Qed.

(** C8. Decoding ["a||b|c@window_3__d__e"] gives the fts parts
    [["a"; "b"; "c"]] with window length [3], and the fd parts
    [["a||b|c@window_3"; "d"; "e"]]. *)
Theorem decode_example :
  parse_feature_timeseries_parts "a||b|c@window_3__d__e"
  = Ok (FtsInformation 3 ["a"; "b"; "c"])
  ∧ parse_feature_dynamics_parts "a||b|c@window_3__d__e"
    = Ok ["a||b|c@window_3"; "d"; "e"].
Proof. split; reflexivity. Qed.

(** C10. The decoder accepts window tags that no valid encoding writes: on
    ["a||b@window_-3__d"] it succeeds with window length [-3]; it does not
    reject a non-positive window length (zero is accepted as well). *)
Theorem parse_accepts_nonpositive_window :
  parse_feature_timeseries_parts "a||b@window_-3__d"
  = Ok (FtsInformation (-3) ["a"; "b"])
  ∧ parse_feature_timeseries_parts "a||b@window_0__d"
    = Ok (FtsInformation 0 ["a"; "b"])
  ∧ ∃ name info,
      parse_feature_timeseries_parts name = Ok info ∧ window_length info < 0.
Proof.
  split; [reflexivity |]. split; [reflexivity |].
  exists "a||b@window_-3__d", (FtsInformation (-3) ["a"; "b"]).
  split; [reflexivity | done].
Qed.

(** *** The window token *)

(** C4, as stated, fails: the last token of ["a||b@3window_"] is
    ["3window_"], no token of that name has the form [window_<integer>], and
    yet the decoder returns window length [3]. *)
Lemma parse_accepts_infix_window :
  last_token "a||b@3window_" = "3window_"
  ∧ forallb (λ t, negb (matches_window_integer t)) (fts_tokens "a||b@3window_")
    = true
  ∧ parse_feature_timeseries_parts "a||b@3window_"
    = Ok (FtsInformation 3 ["a"; "b"]).
Proof. repeat split; reflexivity. Qed.

(** C4, amended. The decoder fails with a [ValueError] on every name that
    does not contain the text [window_] at all, on every name whose last fts
    token does not contain it, and on every name whose last fts token, once
    each [window_] is deleted from it, is ASCII text that is not an integer
    literal; it returns a window length in none of these cases. *)
Theorem parse_requires_window_text (full_feature_name : string) :
  PyStr.contains "window_" full_feature_name = false
  ∨ PyStr.contains "window_" (last_token full_feature_name) = false
  ∨ (isascii (window_literal full_feature_name) = true
     ∧ PyStr.int (window_literal full_feature_name) = None) →
  is_ValueError (parse_feature_timeseries_parts full_feature_name)
  ∧ ∀ info, parse_feature_timeseries_parts full_feature_name ≠ Ok info.
Proof.
  pose proof (last_token_window full_feature_name) as Hlast.
  unfold parse_feature_timeseries_parts, is_ValueError, window_literal.
  fold (last_token full_feature_name).
  destruct (PyStr.contains "window_" (last_token full_feature_name)) eqn:Hc;
    cbn [negb].
  - intros [Hf | [? | [_ Hi]]]; [rewrite Hlast in Hf; done | done |].
    rewrite Hi. eauto.
  - intros _. eauto.
Qed.

Lemma parse_requires_window_text_witness :
  (is_ValueError (parse_feature_timeseries_parts "a||b|c__d__e")
   ∧ ∀ info, parse_feature_timeseries_parts "a||b|c__d__e" ≠ Ok info)
  ∧ (is_ValueError (parse_feature_timeseries_parts "window_3||b@c__d")
     ∧ ∀ info, parse_feature_timeseries_parts "window_3||b@c__d" ≠ Ok info)
  ∧ (is_ValueError (parse_feature_timeseries_parts "a||b@window_3.0__d")
     ∧ ∀ info, parse_feature_timeseries_parts "a||b@window_3.0__d" ≠ Ok info).
Proof.
  split; [| split].
  - apply parse_requires_window_text. left. reflexivity.
  - apply parse_requires_window_text. right. left. reflexivity.
  - apply parse_requires_window_text. right. right. split; reflexivity.
Defined.

(** C5, as stated, fails: with window length [0] the encoder returns a name
    tagged [@window_0], and the decoder reads that name back. *)
Lemma clean_zero_window_produced :
  clean_feature_timeseries_name "temperature__mean__lag_1" 0
  = "temperature||mean|lag_1@window_0"
  ∧ parse_feature_timeseries_parts
      (clean_feature_timeseries_name "temperature__mean__lag_1" 0)
    = Ok (FtsInformation 0 ["temperature"; "mean"; "lag_1"]).
Proof. split; reflexivity. Qed.

(** C5, amended. The encoder does not check the window length: for a valid
    canonical name and window length [0] it returns the encoded segments
    followed by [@window_0], and the decoder reads window length [0] and the
    segments back from it. *)
Theorem clean_zero_window (name : string) :
  valid_canonical_name name = true →
  clean_feature_timeseries_name name 0
  = encode_segments (PyStr.split "__" name) +:+ "@window_0"
  ∧ parse_feature_timeseries_parts (clean_feature_timeseries_name name 0)
    = Ok (FtsInformation 0 (PyStr.split "__" name)).
Proof.
  unfold valid_canonical_name.
  intros ((((Hlen & Hne)%andb_true_iff & Hp%negb_true_iff)%andb_true_iff
            & Ha%negb_true_iff)%andb_true_iff & He%negb_true_iff)%andb_true_iff.
  unfold clean_feature_timeseries_name. fold (encode_body name).
  split; [by rewrite encode_body_segments |].
  rewrite (parse_encoded name _ Hp Ha He) with (z := 0).
  - apply Nat.leb_le in Hlen.
    destruct (Nat.eqb_spec (length (PyStr.split "__" name)) 1); [lia | done].
  - by apply nonempty_segments_tail, forallb_nonempty.
  - reflexivity.
  - reflexivity.
Qed.

Lemma clean_zero_window_witness :
  clean_feature_timeseries_name "a__b" 0
  = encode_segments (PyStr.split "__" "a__b") +:+ "@window_0"
  ∧ parse_feature_timeseries_parts (clean_feature_timeseries_name "a__b" 0)
    = Ok (FtsInformation 0 (PyStr.split "__" "a__b")).
Proof. apply clean_zero_window. reflexivity. Defined.

(** ** Facts about the feature dictionaries *)

Section FeatureDictionaryFacts.
Context {config : Type} `{EqDecision config}.
Variable has_calculator : string → bool.
Variable get_config_from_string : list string → result (option config).

Local Abbreviation feature_dict :=
  (gmap Z (gmap string (gmap string (option (list config))))).

(** Creating the empty containers adds no calculator entry. *)
Lemma lookup3_ensure_kind (d : feature_dict) wl kind w k f :
  lookup3 (ensure_kind d wl kind) w k f = lookup3 d w k f.
Proof.
  unfold ensure_kind, lookup3.
  destruct (d !! wl) as [kinds|] eqn:Hwl; cbn.
  - rewrite Hwl. cbn. destruct (kinds !! kind) as [calcs|] eqn:Hk; [done |].
    destruct (decide (w = wl)) as [->|Hw].
    + rewrite lookup_insert_eq, Hwl. cbn.
      destruct (decide (k = kind)) as [->|Hk'].
      * by rewrite lookup_insert_eq, Hk.
      * by rewrite lookup_insert_ne.
    + by rewrite lookup_insert_ne.
  - rewrite lookup_insert_eq. cbn. rewrite lookup_empty.
    destruct (decide (w = wl)) as [->|Hw].
    + rewrite lookup_insert_eq, Hwl. cbn.
      destruct (decide (k = kind)) as [->|Hk'].
      * by rewrite lookup_insert_eq.
      * by rewrite lookup_insert_ne.
    + by rewrite !lookup_insert_ne.
Qed.

Lemma lookup3_store_eq (d : feature_dict) wl kind name entry :
  lookup3 (store d wl kind name entry) wl kind name = Some entry.
Proof.
  unfold store, lookup3. rewrite lookup_insert_eq. cbn.
  rewrite lookup_insert_eq. cbn. by rewrite lookup_insert_eq.
Qed.

Lemma lookup3_store_ne (d : feature_dict) wl kind name entry w k f :
  (w, k, f) ≠ (wl, kind, name) →
  lookup3 (store d wl kind name entry) w k f = lookup3 d w k f.
Proof.
  intros Hne. unfold store, lookup3.
  destruct (decide (w = wl)) as [->|Hw]; [| by rewrite lookup_insert_ne].
  rewrite lookup_insert_eq. cbn.
  destruct (decide (k = kind)) as [->|Hk].
  - rewrite lookup_insert_eq. cbn.
    rewrite lookup_insert_ne by congruence.
    destruct (d !! wl) as [kinds|]; cbn; [| done].
    by destruct (kinds !! kind).
  - rewrite lookup_insert_ne by done.
    by destruct (d !! wl).
Qed.

Lemma derive_loop_app mappings (names rest : list string) :
  derive_loop has_calculator get_config_from_string mappings (names ++ rest)
  = match derive_loop has_calculator get_config_from_string mappings names with
    | Ok mappings' =>
        derive_loop has_calculator get_config_from_string mappings' rest
    | Raise e => Raise e
    end.
Proof.
  revert mappings. induction names as [|n names IH]; intros mappings; [done |].
  cbn [app derive_loop].
  by destruct (derive_step _ _ mappings n).
Qed.

(** The call on an unknown calculator. *)
Lemma update_unknown (d : feature_dict) wl parts kind name :
  parts !! 0%nat = Some kind → parts !! 1%nat = Some name →
  has_calculator name = false →
  update_feature_dictionary has_calculator get_config_from_string d wl parts
  = (ensure_kind d wl kind,
     Raise (ValueError ("Unknown feature name " +:+ name))).
Proof.
  intros H0 H1 Hc. unfold update_feature_dictionary. by rewrite H0, H1, Hc.
Qed.

Local Abbreviation update :=
  (update_feature_dictionary has_calculator get_config_from_string).

Lemma lookup3_store (d : feature_dict) wl kind name entry w k f :
  lookup3 (store d wl kind name entry) w k f
  = if decide ((w, k, f) = (wl, kind, name)) then Some entry
    else lookup3 d w k f.
Proof.
  case_decide as Hk.
  - injection Hk as -> -> ->. apply lookup3_store_eq.
  - by apply lookup3_store_ne.
Qed.

(** Every call keeps the parameter lists free of duplicates. *)
Lemma update_nodup (d : feature_dict) wl parts :
  dict_nodup d → dict_nodup (update d wl parts).1.
Proof.
  intros Hd. unfold update_feature_dictionary.
  destruct (parts !! 0%nat) as [kind|]; [| done].
  destruct (parts !! 1%nat) as [name|]; [| done].
  assert (dict_nodup (ensure_kind d wl kind)) as Hd0.
  { intros w k f l. rewrite lookup3_ensure_kind. apply Hd. }
  destruct (has_calculator name); cbn [negb]; [| done].
  destruct (get_config_from_string parts) as [[c|]|e]; [| | done].
  - destruct (lookup3 (ensure_kind d wl kind) wl kind name)
      as [[params|]|] eqn:Hl; [| done |].
    + case_decide as Hin; [done |]. cbn [fst].
      intros w k f l. rewrite lookup3_store. case_decide; [| apply Hd0].
      intros [= <-]. apply NoDup_app. split_and!.
      * by apply Hd0 in Hl.
      * intros x Hx ->%list_elem_of_singleton. done.
      * apply NoDup_singleton.
    + cbn [fst]. intros w k f l. rewrite lookup3_store.
      case_decide; [| apply Hd0]. intros [= <-]. apply NoDup_singleton.
  - cbn [fst]. intros w k f l. rewrite lookup3_store.
    case_decide; [done | apply Hd0].
Qed.

Lemma run_updates_nodup (d : feature_dict) calls :
  dict_nodup d →
  dict_nodup (run_updates has_calculator get_config_from_string d calls).
Proof.
  revert d. induction calls as [|call calls IH]; intros d Hd; [done |].
  cbn. apply IH. by apply update_nodup.
Qed.

(** What one call does to a list that is already there. *)
Lemma update_keeps_prefix (d : feature_dict) wl parts w k f l :
  lookup3 d w k f = Some (Some l) →
  (∃ l', lookup3 (update d wl parts).1 w k f = Some (Some l')
         ∧ l `prefix_of` l')
  ∨ (lookup3 (update d wl parts).1 w k f = Some None
     ∧ (update d wl parts).2 = Ok ()
     ∧ w = wl ∧ parts !! 0%nat = Some k ∧ parts !! 1%nat = Some f
     ∧ get_config_from_string parts = Ok None).
Proof.
  intros Hl. unfold update_feature_dictionary.
  destruct (parts !! 0%nat) as [kind|]; [| left; by exists l].
  destruct (parts !! 1%nat) as [name|]; [| left; by exists l].
  pose proof (lookup3_ensure_kind d wl kind) as He.
  assert (lookup3 (ensure_kind d wl kind) w k f = Some (Some l)) as Hl0
    by by rewrite He.
  destruct (has_calculator name); cbn [negb]; [| left; by exists l].
  destruct (get_config_from_string parts) as [[c|]|e];
    [| | left; by exists l].
  - left.
    destruct (lookup3 (ensure_kind d wl kind) wl kind name)
      as [[params|]|] eqn:Hk; [| by exists l |].
    + case_decide as Hin; [by exists l |]. cbn [fst].
      rewrite lookup3_store. case_decide as Hkey; [| by exists l].
      injection Hkey as -> -> ->. rewrite Hk in Hl0. injection Hl0 as ->.
      exists (l ++ [c]). split; [done |]. by apply prefix_app_r.
    + cbn [fst]. rewrite lookup3_store. case_decide as Hkey; [| by exists l].
      injection Hkey as -> -> ->. congruence.
  - cbn [fst snd]. rewrite lookup3_store. case_decide as Hkey.
    + right. by injection Hkey as -> -> ->.
    + left. by exists l.
Qed.

(** A call that returns and carried a parameter set leaves it in the list
    of its calculator. *)
Lemma update_records_config (d : feature_dict) wl parts c :
  (update d wl parts).2 = Ok () →
  get_config_from_string parts = Ok (Some c) →
  ∃ kind name params,
    parts !! 0%nat = Some kind ∧ parts !! 1%nat = Some name
    ∧ lookup3 (update d wl parts).1 wl kind name = Some (Some params)
    ∧ c ∈ params.
Proof.
  unfold update_feature_dictionary.
  destruct (parts !! 0%nat) as [kind|]; [| done].
  destruct (parts !! 1%nat) as [name|]; [| done].
  destruct (has_calculator name); cbn [negb]; [| done].
  intros Hok Hc. rewrite Hc in Hok |- *. exists kind, name.
  destruct (lookup3 (ensure_kind d wl kind) wl kind name)
    as [[params|]|] eqn:Hk; [| done |].
  - case_decide as Hin.
    + exists params. cbn [fst]. by rewrite Hk.
    + exists (params ++ [c]). cbn [fst]. rewrite lookup3_store_eq.
      split_and!; [done | done | done |]. apply elem_of_app. right.
      by apply list_elem_of_singleton.
  - exists [c]. cbn [fst]. rewrite lookup3_store_eq.
    split_and!; [done | done | done |]. by apply list_elem_of_singleton.
Qed.

End FeatureDictionaryFacts.

(** ** The claims about the feature dictionaries *)

(** C9. A name whose calculator segment is not in the catalogue makes
    [update_feature_dictionary] raise a [ValueError]; the dictionary it
    leaves has the same calculator entries as before (only empty containers
    are created). [derive_features_dictionaries] raises that error when it
    reaches such a name, be the unknown calculator the one of the feature
    time series or the one of the feature dynamic. *)
Theorem unknown_calculator_raises {config : Type} `{EqDecision config}
    (has_calculator : string → bool)
    (get_config_from_string : list string → result (option config))
    (calc : string) :
  has_calculator calc = false →
  (∀ d wl kind params,
     ∃ d',
       update_feature_dictionary has_calculator get_config_from_string
         d wl (kind :: calc :: params)
       = (d', Raise (ValueError ("Unknown feature name " +:+ calc)))
       ∧ ∀ w k f, lookup3 d' w k f = lookup3 d w k f)
  ∧ (∀ before mappings name info rest,
       derive_features_dictionaries has_calculator get_config_from_string before
       = Ok mappings →
       parse_feature_timeseries_parts name = Ok info →
       fts_parts info !! 1%nat = Some calc →
       derive_features_dictionaries has_calculator get_config_from_string
         (before ++ name :: rest)
       = Raise (ValueError ("Unknown feature name " +:+ calc)))
  ∧ (∀ before mappings name info fts_mapping fd_parts rest,
       derive_features_dictionaries has_calculator get_config_from_string before
       = Ok mappings →
       parse_feature_timeseries_parts name = Ok info →
       update_feature_dictionary has_calculator get_config_from_string
         mappings.1 (window_length info) (fts_parts info)
       = (fts_mapping, Ok ()) →
       parse_feature_dynamics_parts name = Ok fd_parts →
       fd_parts !! 1%nat = Some calc →
       derive_features_dictionaries has_calculator get_config_from_string
         (before ++ name :: rest)
       = Raise (ValueError ("Unknown feature name " +:+ calc))).
Proof.
  intros Hc. split_and!.
  - intros d wl kind params. eexists. split.
    + by apply update_unknown.
    + intros w k f. apply lookup3_ensure_kind.
  - intros before [fts_mapping fd_mapping] name info rest Hb Hp H1.
    unfold derive_features_dictionaries in *.
    rewrite derive_loop_app, Hb. cbn [derive_loop derive_step]. rewrite Hp.
    destruct (fts_parts info) as [|kind [|c ps]] eqn:Hparts; [done | done |].
    injection H1 as ->.
    by rewrite (update_unknown _ _ _ _ _ kind calc).
  - intros before [fts_mapping0 fd_mapping] name info fts_mapping fd_parts rest
      Hb Hp Hu Hfd H1.
    unfold derive_features_dictionaries in *.
    rewrite derive_loop_app, Hb. cbn [derive_loop derive_step fst] in *.
    rewrite Hp, Hu, Hfd.
    destruct fd_parts as [|kind [|c ps]]; [done | done |].
    injection H1 as ->.
    by rewrite (update_unknown _ _ _ _ _ kind calc).
Qed.

Lemma unknown_calculator_raises_witness :
  derive_features_dictionaries example_has_calculator example_get_config
    ([] ++ "a||nope|p_1@window_3__mean" :: [])
  = Raise (ValueError ("Unknown feature name " +:+ "nope")).
Proof.
  apply (proj1 (proj2 (unknown_calculator_raises example_has_calculator
                         example_get_config "nope" eq_refl))
           [] (∅, ∅) "a||nope|p_1@window_3__mean"
           (FtsInformation 3 ["a"; "nope"; "p_1"]) []);
    reflexivity.
Defined.

(** C6, as stated, fails: a call for a calculator without parameters puts
    null in place of the list accumulated for it. *)
Lemma update_discards_parameters :
  let d1 :=
    (update_feature_dictionary example_has_calculator example_get_config
       ∅ 5 ["temperature"; "quantile"; "q_0.5"]).1 in
  let second :=
    update_feature_dictionary example_has_calculator example_get_config
      d1 5 ["temperature"; "quantile"] in
  lookup3 d1 5 "temperature" "quantile" = Some (Some [["q_0.5"]])
  ∧ second.2 = Ok ()
  ∧ lookup3 second.1 5 "temperature" "quantile" = Some None.
Proof. vm_compute. done. Qed.

(** C6, amended. After every sequence of calls on an empty dictionary each
    parameter list is free of duplicates; a call that returns and carried a
    parameter set leaves that set in the list of its calculator; and a call
    keeps every list that was there as a prefix of the new one (nothing
    lost, insertion order kept), except the call for that very calculator
    without parameters, which returns and leaves null in place of the
    list. *)
Theorem feature_dictionary_accumulation {config : Type} `{EqDecision config}
    (has_calculator : string → bool)
    (get_config_from_string : list string → result (option config)) :
  (∀ calls,
     dict_nodup (run_updates has_calculator get_config_from_string ∅ calls))
  ∧ (∀ d wl parts c,
       (update_feature_dictionary has_calculator get_config_from_string
          d wl parts).2 = Ok () →
       get_config_from_string parts = Ok (Some c) →
       ∃ kind name params,
         parts !! 0%nat = Some kind ∧ parts !! 1%nat = Some name
         ∧ lookup3 (update_feature_dictionary has_calculator
                      get_config_from_string d wl parts).1 wl kind name
           = Some (Some params)
         ∧ c ∈ params)
  ∧ (∀ d wl parts w k f l,
       lookup3 d w k f = Some (Some l) →
       (∃ l',
          lookup3 (update_feature_dictionary has_calculator
                     get_config_from_string d wl parts).1 w k f
          = Some (Some l')
          ∧ l `prefix_of` l')
       ∨ (lookup3 (update_feature_dictionary has_calculator
                     get_config_from_string d wl parts).1 w k f = Some None
          ∧ (update_feature_dictionary has_calculator
               get_config_from_string d wl parts).2 = Ok ()
          ∧ w = wl ∧ parts !! 0%nat = Some k ∧ parts !! 1%nat = Some f
          ∧ get_config_from_string parts = Ok None)).
Proof.
  split_and!.
  - intros calls. apply run_updates_nodup. intros w k f l. by unfold lookup3.
  - apply update_records_config.
  - apply update_keeps_prefix.
Qed.

(** ** Facts about the completeness filter *)

Section CompletenessFacts.
Context {value : Type}.
Variable isnull : value → bool.

Lemma elem_of_unique_go seen l x :
  x ∈ unique_go seen l ↔ x ∈ l ∧ x ∉ seen.
Proof.
  revert seen. induction l as [|y t IH]; intros seen; cbn.
  - split; [by intros ?%elem_of_nil | by intros [?%elem_of_nil _]].
  - case_decide as Hy.
    + rewrite IH, elem_of_cons. split; [intros [? ?]; by auto |].
      intros [[-> | Ht] Hs]; [done | done].
    + rewrite !elem_of_cons, IH, elem_of_cons.
      split; [intros [-> | [? Hn]]; [by auto |]; split; [by auto |];
              intros Hs; apply Hn; by right |].
      intros [[-> | Ht] Hs]; [by left |].
      destruct (decide (x = y)) as [-> | Hxy]; [by left | right].
      split; [done |]. by intros [? | ?].
Qed.

Lemma elem_of_unique l x : x ∈ unique l ↔ x ∈ l.
Proof.
  unfold unique. rewrite elem_of_unique_go. split; [by intros [? _] |].
  intros Hx. split; [done | apply not_elem_of_nil].
Qed.

Section Rows.
Context {R : Type} (kind : R → string) (val : R → value).

(** The names collected in [target_list] are those with a missing value
    in some row. *)
Lemma elem_of_target_list rows name :
  name ∈ unique (kind <$> filter (λ r, isnull (val r) = true) rows)
  ↔ ∃ r, r ∈ rows ∧ kind r = name ∧ isnull (val r) = true.
Proof.
  rewrite elem_of_unique, list_elem_of_fmap. split.
  - intros (r & -> & [Hn Hr]%list_elem_of_filter). eauto.
  - intros (r & Hr & <- & Hn). exists r. split; [done |].
    by apply list_elem_of_filter.
Qed.

Lemma elem_of_drop_incomplete rows r :
  r ∈ drop_incomplete isnull kind val rows
  ↔ r ∈ rows
    ∧ ∀ r', r' ∈ rows → kind r' = kind r → isnull (val r') = false.
Proof.
  unfold drop_incomplete. rewrite list_elem_of_filter, elem_of_target_list.
  split.
  - intros [Hno Hr]. split; [done |]. intros r' Hr' Hk.
    apply not_true_is_false. intros Hn. apply Hno. eauto.
  - intros [Hr Hall]. split; [| done].
    intros (r' & Hr' & Hk & Hn). rewrite (Hall r' Hr' Hk) in Hn. done.
Qed.

Lemma filter_kind_filter (P : R → Prop) `{∀ r, Decision (P r)}
    (rows : list R) name :
  (∀ r, r ∈ rows → kind r = name → P r) →
  filter (λ r, kind r = name) (filter P rows)
  = filter (λ r, kind r = name) rows.
Proof.
  induction rows as [|r rows IH]; intros Hall; [done |].
  rewrite !filter_cons.
  assert (∀ r', r' ∈ rows → kind r' = name → P r') as Hrest.
  { intros r' Hr'. apply Hall. by right. }
  destruct (decide (kind r = name)) as [Hk | Hk].
  - rewrite decide_True by (apply Hall; [by left | done]).
    rewrite filter_cons, decide_True by done. by rewrite IH.
  - case_decide; [rewrite filter_cons, decide_False by done |]; by rewrite IH.
Qed.

Lemma drop_incomplete_keeps rows name :
  (∀ r, r ∈ rows → kind r = name → isnull (val r) = false) →
  filter (λ r, kind r = name) (drop_incomplete isnull kind val rows)
  = filter (λ r, kind r = name) rows.
Proof.
  intros Hall. unfold drop_incomplete.
  apply filter_kind_filter.
  intros r Hr Hk. rewrite elem_of_target_list.
  intros (r' & Hr' & Hk' & Hn). rewrite (Hall r' Hr') in Hn; congruence.
Qed.

End Rows.
End CompletenessFacts.

(** C3. The stage-1 filter, which is the same in the pandas and in the dask
    branch, keeps a row exactly when no row of the table with the same
    feature name has a missing value: a name with a missing value in any
    window of any id loses all its rows, and a name without missing value
    keeps all of them, in order. The pandas branch renames the rows that
    pass the filter; the dask branch filters the renamed rows. *)
Theorem stage1_completeness_filter {id value : Type} (isnull : value → bool) :
  (∀ (R : Type) (kind : R → string) (val : R → value) rows name,
     (∃ r, r ∈ rows ∧ kind r = name ∧ isnull (val r) = true) →
     ∀ r, r ∈ drop_incomplete isnull kind val rows → kind r ≠ name)
  ∧ (∀ (R : Type) (kind : R → string) (val : R → value) rows name,
       (∀ r, r ∈ rows → kind r = name → isnull (val r) = false) →
       filter (λ r, kind r = name) (drop_incomplete isnull kind val rows)
       = filter (λ r, kind r = name) rows)
  ∧ (∀ (rows : list (@stage1_row id value)) wl out,
       out ∈ feature_timeseries_pandas isnull rows wl
       ↔ ∃ r, out = flatten_row wl r ∧ r ∈ rows
              ∧ ∀ r', r' ∈ rows → s1_kind r' = s1_kind r →
                      isnull (s1_value r') = false)
  ∧ (∀ (rows : list (@stage1_row id value)) wl out,
       out ∈ feature_timeseries_dask isnull rows wl
       ↔ (∃ r, out = flatten_row wl r ∧ r ∈ rows)
         ∧ ∀ r', r' ∈ rows →
                 clean_feature_timeseries_name (s1_kind r') wl = fts_kind out →
                 isnull (s1_value r') = false).
Proof.
  split_and!.
  - intros R kind val rows name (r0 & Hr0 & Hk0 & Hn0) r
      [Hr Hall]%elem_of_drop_incomplete Hk.
    rewrite (Hall r0 Hr0) in Hn0; congruence.
  - intros R kind val rows name. apply drop_incomplete_keeps.
  - intros rows wl out. unfold feature_timeseries_pandas.
    rewrite list_elem_of_fmap.
    by setoid_rewrite elem_of_drop_incomplete.
  - intros rows wl out. unfold feature_timeseries_dask.
    rewrite elem_of_drop_incomplete, list_elem_of_fmap. split.
    + intros [Hout Hall]. split; [done |]. intros r' Hr' Hk.
      apply (Hall (flatten_row wl r')); [| done].
      apply list_elem_of_fmap. eauto.
    + intros [Hout Hall]. split; [done |].
      intros o' (r' & -> & Hr')%list_elem_of_fmap Hk. by apply Hall.
Qed.

(** ** The claim about the windowed view *)

Lemma integer_value_eq q :
  is_integer q = true → Qnum q = Z.pos (Qden q) * integer_value q.
Proof.
  unfold is_integer, integer_value. intros Hm%Z.eqb_eq.
  pose proof (Z.div_mod (Qnum q) (Z.pos (Qden q))). lia.
Qed.

(** C2. Constructing the windowed view with a split size that is zero,
    negative, not an integer, or larger than the length of a series present
    fails with a [ValueError], and it fails in the constructor: no view is
    returned. *)
Theorem split_size_rejected {id sample : Type}
    (root_ts_data : list (@series id sample)) (split_size : number) :
  invalid_split_size root_ts_data split_size →
  is_ValueError (IterableSplitTsData root_ts_data split_size)
  ∧ ∀ view, IterableSplitTsData root_ts_data split_size ≠ Ok view.
Proof.
  intros Hbad.
  assert (is_ValueError (IterableSplitTsData root_ts_data split_size)) as Hv.
  { unfold IterableSplitTsData, is_ValueError.
    destruct split_size as [q|]; [| by eauto]. cbn in Hbad.
    destruct (is_integer q) eqn:Hint; cbn [negb]; [| by eauto].
    pose proof (integer_value_eq q Hint) as Hq.
    destruct (Z.leb_spec (integer_value q) 0) as [Hle | Hpos]; [by eauto |].
    destruct (existsb _ root_ts_data) eqn:Hex; [by eauto |].
    exfalso. destruct Hbad as [? | [Hle | (s & Hs & Hlt)]]; [done | |].
    - unfold Qle in Hle. cbn in Hle. nia.
    - assert (existsb
                (λ s, Z.of_nat (length (series_samples s)) <? integer_value q)
                root_ts_data = true) as Hex'; [| congruence].
      apply existsb_exists. exists s. split; [by apply list_elem_of_In |].
      apply Z.ltb_lt. unfold Qlt in Hlt. cbn in Hlt. nia. }
  split; [done |]. intros view Hok. destruct Hv as [msg Hv]. congruence.
Qed.

Lemma split_size_rejected_witness :
  let root := [Series 1%nat "a" [10; 20; 30]; Series 2%nat "a" [1; 2; 3; 4]] in
  Forall (λ size, is_ValueError (IterableSplitTsData root size)
                  ∧ ∀ view, IterableSplitTsData root size ≠ Ok view)
    [Num 0; Num (-20); Num (3 # 2); Num (inject_Z (3 + 1))].
Proof.
  repeat apply Forall_cons_2; [.. | apply Forall_nil_2];
    apply split_size_rejected; cbn.
  - right. left. done.
  - right. left. done.
  - left. reflexivity.
  - right. right. eexists. split; [apply list_elem_of_here | reflexivity].
Defined.

(** * Further properties of the code *)

#[local] Set Warnings "-clear-no-such-hyp".

(** ** The codec on full feature-dynamics names *)

Lemma string_length_app (s t : string) :
  String.length (s +:+ t) = (String.length s + String.length t)%nat.
Proof.
  induction s as [|c s IH]; [done |]. rewrite string_app_cons. cbn. by rewrite IH.
Qed.

Lemma string_app_inj_r (s1 s2 t : string) : s1 +:+ t = s2 +:+ t → s1 = s2.
Proof.
  revert s2. induction s1 as [|c s1 IH]; intros [|d s2] Heq; [done | | |].
  - apply (f_equal String.length) in Heq.
    rewrite string_app_nil_l, string_length_app in Heq. cbn in Heq. lia.
  - apply (f_equal String.length) in Heq.
    rewrite string_app_nil_l, string_length_app in Heq. cbn in Heq. lia.
  - rewrite !string_app_cons in Heq. injection Heq as -> Heq.
    by rewrite (IH s2).
Qed.

Lemma ends_with_underscore_app s t :
  t ≠ "" → ends_with_underscore (s +:+ t) = ends_with_underscore t.
Proof.
  intros Ht. induction s as [|c s IH]; [done |].
  rewrite string_app_cons. cbn [ends_with_underscore]. rewrite IH.
  destruct (s +:+ t) eqn:Hst; [| done].
  apply (f_equal String.length) in Hst. rewrite string_length_app in Hst.
  destruct t; [done | cbn in Hst; lia].
Qed.

Lemma ends_with_underscore_absent s :
  PyStr.contains "_" s = false → ends_with_underscore s = false.
Proof.
  induction s as [|c r IH]; [done |]. intros [Hc Hr]%(absent_cons "_").
  cbn [ends_with_underscore]. destruct r; [by apply Ascii.eqb_neq | by apply IH].
Qed.

(** [str] writes no underscore. *)
Lemma str_no_underscore n : PyStr.contains "_" (PyStr.str n) = false.
Proof.
  destruct n as [|p|p].
  - done.
  - apply (all_digits_absent "_"); [done | apply all_digits_str; lia].
  - unfold PyStr.str. cbn [Z.to_int NilZero.string_of_int].
    rewrite (contains_single_cons "_"). cbn [orb Ascii.eqb].
    change (PyStr.contains (single "_") (NilZero.string_of_uint (Pos.to_uint p)))
      with (PyStr.contains "_" (PyStr.str (Z.pos p))).
    apply (all_digits_absent "_"); [done | apply all_digits_str; lia].
Qed.

Lemma str_nonempty n : PyStr.str n ≠ "".
Proof.
  destruct n as [|p|p]; [done | | done].
  rewrite str_pos. apply string_of_uint_nonempty, Unsigned.to_uint_nonnil.
Qed.

Lemma window_tag_one_segment_absent t :
  PyStr.contains "_" t = false → one_segment ("@window_" +:+ t).
Proof.
  intros Hus. rewrite !string_app_cons, string_app_nil_l.
  repeat (apply one_segment_cons;
          [rewrite heads2_cons; first [done | by rewrite first_is_absent] |]).
  by apply (split_absent "_" "_").
Qed.

(** A separator put after text that does not end in an underscore splits
    the text from what follows. *)
Lemma split_app_sep_gen s w :
  ends_with_underscore s = false →
  PyStr.split "__" (s +:+ "__" +:+ w) = PyStr.split "__" s ++ PyStr.split "__" w.
Proof.
  intros Hs.
  assert (PyStr.split "__" ("__" +:+ w) = "" :: PyStr.split "__" w) as Htl.
  { change ("__" +:+ w) with (String "_" (String "_" w)).
    by rewrite (split_hit "_"). }
  remember ("__" +:+ w) as tl eqn:Heq. clear Heq.
  induction s as [|r IH|c r Hh IH] using (scan2_ind "_").
  - by rewrite string_app_nil_l, Htl.
  - rewrite !string_app_cons, !(split_hit "_"). unfold dbl in *.
    rewrite IH; [done |]. by destruct r.
  - rewrite string_app_cons, !(split_miss "_").
    + unfold dbl in *.
      rewrite IH, push_app; [done | apply split_nonempty |]. by destruct r.
    + done.
    + rewrite heads2_cons in Hh |- *. destruct r as [|d r']; [| done].
      cbn in Hs. by rewrite Hs.
Qed.

Lemma clean_one_segment (name : string) (wl : Z) :
  PyStr.split "__" (clean_feature_timeseries_name name wl)
  = [clean_feature_timeseries_name name wl]
  ∧ ∀ rest,
      PyStr.split "__" (clean_feature_timeseries_name name wl +:+ "__" +:+ rest)
      = clean_feature_timeseries_name name wl :: PyStr.split "__" rest.
Proof.
  assert (one_segment (clean_feature_timeseries_name name wl)) as Hone.
  { unfold clean_feature_timeseries_name. fold (encode_body name).
    apply one_segment_body; [| done].
    apply window_tag_one_segment_absent, str_no_underscore. }
  split; [exact Hone |]. intros rest.
  rewrite split_app_sep_gen, Hone; [done |].
  unfold clean_feature_timeseries_name.
  rewrite !ends_with_underscore_app.
  - apply ends_with_underscore_absent, str_no_underscore.
  - apply str_nonempty.
  - intros H%(f_equal String.length). rewrite string_length_app in H.
    cbn in H. lia.
Qed.

(** The encoded name holds no double underscore, whatever the raw name and
    the window length: it is one segment of any name it starts. *)
Theorem encoded_name_one_segment (name : string) (wl : Z) :
  PyStr.split "__" (clean_feature_timeseries_name name wl)
  = [clean_feature_timeseries_name name wl]
  ∧ ∀ rest,
      PyStr.split "__" (clean_feature_timeseries_name name wl +:+ "__" +:+ rest)
      = clean_feature_timeseries_name name wl :: PyStr.split "__" rest.
Proof. apply clean_one_segment. Qed.

(** The decoder of the feature time series reads only the segment before
    the first double underscore. *)
Lemma fts_tokens_head s1 s2 :
  List.hd "" (PyStr.split "__" s1) = List.hd "" (PyStr.split "__" s2) →
  fts_tokens s1 = fts_tokens s2.
Proof. unfold fts_tokens. by intros ->. Qed.

(** A full name, the encoded canonical name followed by the name and the
    parameters of a feature dynamic, decodes to the window length and the
    segments of the raw name on one side, and to the encoded name followed by
    the segments of the feature dynamic on the other. *)
Theorem full_name_decodes (name : string) (N : Z) (fd : string) :
  valid_canonical_name name = true → 0 ≤ N →
  parse_feature_timeseries_parts
    (clean_feature_timeseries_name name N +:+ "__" +:+ fd)
  = Ok (FtsInformation N (PyStr.split "__" name))
  ∧ parse_feature_dynamics_parts
      (clean_feature_timeseries_name name N +:+ "__" +:+ fd)
    = Ok (clean_feature_timeseries_name name N :: PyStr.split "__" fd).
Proof.
  intros Hvalid HN.
  destruct (clean_one_segment name N) as [Hone Hfull].
  split.
  - pose proof Hvalid as Hv. unfold valid_canonical_name in Hv.
    apply andb_true_iff in Hv as [Hv He%negb_true_iff].
    apply andb_true_iff in Hv as [Hv Ha%negb_true_iff].
    apply andb_true_iff in Hv as [Hv Hp%negb_true_iff].
    apply andb_true_iff in Hv as [Hlen Hne].
    assert (fts_tokens (clean_feature_timeseries_name name N)
            = PyStr.split "__" name ++ ["window_" +:+ PyStr.str N]) as Htok.
    { unfold clean_feature_timeseries_name. fold (encode_body name).
      apply (fts_tokens_encoded name _ Hp Ha He);
        [by apply nonempty_segments_tail, forallb_nonempty
        | by apply all_digits_str]. }
    unfold parse_feature_timeseries_parts.
    rewrite (fts_tokens_head _ (clean_feature_timeseries_name name N))
      by by rewrite Hfull, Hone.
    rewrite Htok, last_last, removelast_last, window_token_contains.
    rewrite window_token_digits, int_str by by apply all_digits_str.
    cbn [negb]. apply Nat.leb_le in Hlen.
    destruct (Nat.eqb_spec (length (PyStr.split "__" name)) 1); [lia | done].
  - unfold parse_feature_dynamics_parts. rewrite Hfull.
    pose proof (split_nonempty "_" fd) as Hne. unfold dbl in Hne.
    by destruct (PyStr.split "__" fd).
Qed.

Lemma full_name_decodes_witness :
  parse_feature_timeseries_parts
    (clean_feature_timeseries_name "temperature__quantile__q_0.5" 5
     +:+ "__" +:+ "mean")
  = Ok (FtsInformation 5 (PyStr.split "__" "temperature__quantile__q_0.5"))
  ∧ parse_feature_dynamics_parts
      (clean_feature_timeseries_name "temperature__quantile__q_0.5" 5
       +:+ "__" +:+ "mean")
    = Ok (clean_feature_timeseries_name "temperature__quantile__q_0.5" 5
          :: PyStr.split "__" "mean").
Proof. apply full_name_decodes; [reflexivity | lia]. Defined.

(** ** The encoder loses nothing on names without its separator *)

Lemma params_undo r :
  PyStr.contains "|" r = false →
  PyStr.replace "|" "__" (PyStr.replace "__" "|" r) = r.
Proof.
  induction r as [|r IH|c r Hh IH] using (scan2_ind "_"); intros Hr.
  - done.
  - apply absent_cons in Hr as [_ [_ Hr]%absent_cons].
    rewrite (replace_hit "_"), string_app_cons, string_app_nil_l.
    rewrite (replace_single_hit "|"). unfold single, dbl in *. by rewrite IH.
  - apply absent_cons in Hr as [Hc Hr].
    rewrite (replace_miss "_"), (replace_single_miss "|") by done.
    unfold single, dbl in *. by rewrite IH.
Qed.

(** Putting the double underscore back for the first ["||"] and for each
    ["|"] left gives the raw name again. *)
Lemma encode_body_undo name :
  PyStr.contains "|" name = false →
  PyStr.replace "|" "__" (PyStr.replace_first "||" "__" (encode_body name))
  = name.
Proof.
  induction name as [|r IH|c r Hh IH] using (scan2_ind "_"); intros Hr.
  - done.
  - apply absent_cons in Hr as [_ [_ Hr]%absent_cons].
    rewrite encode_body_hit, !string_app_cons, string_app_nil_l.
    rewrite (replace_first_hit "|").
    rewrite (replace_single_app "|"), (replace_absent "|" "") by done.
    unfold single, dbl in *. by rewrite params_undo.
  - apply absent_cons in Hr as [Hc Hr].
    rewrite encode_body_miss by done.
    rewrite (replace_first_miss "|") by by apply heads2_pipe_other.
    rewrite (replace_single_miss "|") by done.
    unfold single, dbl in *. by rewrite IH.
Qed.

Lemma clean_inj (name1 name2 : string) (wl : Z) :
  PyStr.contains "|" name1 = false → PyStr.contains "|" name2 = false →
  clean_feature_timeseries_name name1 wl = clean_feature_timeseries_name name2 wl →
  name1 = name2.
Proof.
  intros H1 H2. unfold clean_feature_timeseries_name.
  fold (encode_body name1) (encode_body name2).
  intros Heq%string_app_inj_r.
  by rewrite <- (encode_body_undo name1), <- (encode_body_undo name2), Heq.
Qed.

(** Two raw names without ["|"] that are encoded alike, for one window
    length, are the same name. *)
Theorem clean_feature_timeseries_name_injective (name1 name2 : string) (wl : Z) :
  PyStr.contains "|" name1 = false → PyStr.contains "|" name2 = false →
  clean_feature_timeseries_name name1 wl = clean_feature_timeseries_name name2 wl →
  name1 = name2.
Proof. apply clean_inj. Qed.

Lemma clean_feature_timeseries_name_injective_witness :
  "a__b" = "a__b".
Proof.
  apply (clean_feature_timeseries_name_injective "a__b" "a__b" 5); reflexivity.
Defined.

(** With that character in a name, two names can share an encoding. *)
Example clean_feature_timeseries_name_collision :
  clean_feature_timeseries_name "a__b__c" 5
  = clean_feature_timeseries_name "a__b|c" 5.
Proof. reflexivity. Qed.

(** ** The decoder of the feature dynamic *)

Lemma contains_dbl_cons a c r :
  PyStr.contains (dbl a) (String c r)
  = heads2 a (String c r) || PyStr.contains (dbl a) r.
Proof. cbn [PyStr.contains]. by rewrite prefix_dbl. Qed.

Lemma split_length_contains s :
  (length (PyStr.split "__" s) =? 1)%nat = negb (PyStr.contains "__" s).
Proof.
  induction s as [|r IH|c r Hh IH] using (scan2_ind "_").
  - done.
  - rewrite (split_hit "_"), (contains_dbl_cons "_"), heads2_hit.
    pose proof (split_nonempty "_" r). by destruct (PyStr.split (dbl "_") r).
  - rewrite (split_miss "_"), (contains_dbl_cons "_"), Hh by done.
    cbn [orb]. unfold dbl in *. rewrite <- IH.
    pose proof (split_nonempty "_" r) as Hne. unfold dbl in Hne.
    by destruct (PyStr.split "__" r).
Qed.

(** [parse_feature_dynamics_parts] fails exactly on the names without a
    double underscore; when it returns, the parts are at least two and,
    joined by the double underscore, give the name back. *)
Theorem parse_feature_dynamics_parts_spec (full_feature_name : string) :
  parse_feature_dynamics_parts full_feature_name
  = (if PyStr.contains "__" full_feature_name
     then Ok (PyStr.split "__" full_feature_name)
     else Raise (ValueError (one_part_msg full_feature_name)))
  ∧ ∀ fd_parts,
      parse_feature_dynamics_parts full_feature_name = Ok fd_parts →
      PyStr.join "__" fd_parts = full_feature_name
      ∧ (2 ≤ length fd_parts)%nat.
Proof.
  unfold parse_feature_dynamics_parts. rewrite split_length_contains.
  destruct (PyStr.contains "__" full_feature_name) eqn:Hc; cbn [negb].
  - split; [done |]. intros fd_parts [= <-]. split; [apply (join_split "_") |].
    pose proof (split_length_contains full_feature_name) as Hl.
    rewrite Hc in Hl. cbn in Hl. apply Nat.eqb_neq in Hl.
    pose proof (split_nonempty "_" full_feature_name) as Hne. unfold dbl in Hne.
    destruct (PyStr.split "__" full_feature_name) as [|? [|? ?]]; cbn in *;
      [done | done | lia].
  - split; [done | done].
Qed.

(** ** One call on a feature dictionary *)

Section UpdateFacts.
Context {config : Type} `{EqDecision config}.
Variable has_calculator : string → bool.
Variable get_config_from_string : list string → result (option config).

Local Abbreviation feature_dict :=
  (gmap Z (gmap string (gmap string (option (list config))))).
Local Abbreviation update :=
  (update_feature_dictionary has_calculator get_config_from_string).

Lemma lookup3_Some_inv (d : feature_dict) w k f entry :
  lookup3 d w k f = Some entry →
  ∃ kinds calcs,
    d !! w = Some kinds ∧ kinds !! k = Some calcs ∧ calcs !! f = Some entry.
Proof.
  unfold lookup3. destruct (d !! w) as [kinds|]; [cbn | done].
  destruct (kinds !! k) as [calcs|] eqn:Hk; [cbn | done]. eauto.
Qed.

Lemma ensure_kind_present (d : feature_dict) wl kind kinds calcs :
  d !! wl = Some kinds → kinds !! kind = Some calcs →
  ensure_kind d wl kind = d.
Proof.
  intros Hw Hk. unfold ensure_kind. rewrite Hw. cbn beta iota.
  rewrite Hw. simpl. by rewrite Hk.
Qed.

Lemma store_same (d : feature_dict) wl kind name entry :
  lookup3 d wl kind name = Some entry → store d wl kind name entry = d.
Proof.
  intros (kinds & calcs & Hw & Hk & Hn)%lookup3_Some_inv.
  unfold store. rewrite Hw. simpl. rewrite Hk. simpl.
  by rewrite (insert_id calcs name entry Hn), (insert_id kinds kind calcs Hk),
    (insert_id d wl kinds Hw).
Qed.

Lemma dom_ensure_kind (d : feature_dict) wl kind :
  dom (ensure_kind d wl kind) = {[wl]} ∪ dom d.
Proof.
  unfold ensure_kind. destruct (d !! wl) as [kinds|] eqn:Hw.
  - assert (wl ∈ dom d) by (apply elem_of_dom; eauto).
    rewrite Hw. cbn. destruct (kinds !! kind); [set_solver |].
    rewrite dom_insert_L. set_solver.
  - rewrite lookup_insert_eq. cbn. rewrite lookup_empty, !dom_insert_L.
    set_solver.
Qed.

Lemma dom_store (d : feature_dict) wl kind name entry :
  dom (store d wl kind name entry) = {[wl]} ∪ dom d.
Proof. unfold store. by rewrite dom_insert_L. Qed.

(** A call that gets fewer than two parts raises [IndexError] and leaves the
    dictionary as it was. *)
Lemma update_short (d : feature_dict) wl parts :
  (length parts < 2)%nat →
  update d wl parts = (d, Raise (IndexError "list index out of range")).
Proof.
  destruct parts as [|kind [|name ps]]; cbn [length]; [done | done | lia].
Qed.

Lemma update_ok_parts (d : feature_dict) wl parts :
  (update d wl parts).2 = Ok () →
  ∃ kind name,
    parts !! 0%nat = Some kind ∧ parts !! 1%nat = Some name
    ∧ has_calculator name = true.
Proof.
  unfold update_feature_dictionary.
  destruct (parts !! 0%nat) as [kind|]; [| done].
  destruct (parts !! 1%nat) as [name|]; [| done].
  destruct (has_calculator name) eqn:Hc; [| done]. eauto.
Qed.

(** The window lengths of the dictionary after a call with two parts or
    more: those it had, and the one of the call. *)
Lemma dom_update (d : feature_dict) wl parts :
  (2 ≤ length parts)%nat → dom (update d wl parts).1 = {[wl]} ∪ dom d.
Proof.
  destruct parts as [|kind [|name ps]]; cbn [length]; [lia | lia |]. intros _.
  unfold update_feature_dictionary. cbn [lookup list_lookup].
  pose proof (dom_ensure_kind d wl kind) as He.
  destruct (has_calculator name); cbn [negb]; [| done].
  destruct (get_config_from_string _) as [[c|]|e]; [| | done].
  - destruct (lookup3 _ wl kind name) as [[params|]|]; [| done |].
    + case_decide; [done |]. cbn [fst]. rewrite dom_store. set_solver.
    + cbn [fst]. rewrite dom_store. set_solver.
  - cbn [fst]. rewrite dom_store. set_solver.
Qed.

End UpdateFacts.

(** A call touches the entry of its own calculator only: the entry under
    any other window length, column or calculator is what it was, whether
    the call returns or raises. *)
Theorem update_feature_dictionary_frame {config : Type} `{EqDecision config}
    (has_calculator : string → bool)
    (get_config_from_string : list string → result (option config))
    d wl parts w k f :
  w ≠ wl ∨ parts !! 0%nat ≠ Some k ∨ parts !! 1%nat ≠ Some f →
  lookup3 (update_feature_dictionary has_calculator get_config_from_string
             d wl parts).1 w k f
  = lookup3 d w k f.
Proof.
  intros Hother. unfold update_feature_dictionary.
  destruct (parts !! 0%nat) as [kind|]; [| done].
  destruct (parts !! 1%nat) as [name|]; [| done].
  assert ((w, k, f) ≠ (wl, kind, name)) as Hne by (intros [= -> -> ->]; tauto).
  pose proof (lookup3_ensure_kind d wl kind w k f) as He.
  destruct (has_calculator name); cbn [negb]; [| done].
  destruct (get_config_from_string parts) as [[c|]|e]; [| | done].
  - destruct (lookup3 (ensure_kind d wl kind) wl kind name) as [[params|]|];
      [| done |].
    + case_decide; [done |]. cbn [fst]. by rewrite lookup3_store_ne.
    + cbn [fst]. by rewrite lookup3_store_ne.
  - cbn [fst]. by rewrite lookup3_store_ne.
Qed.

Lemma update_feature_dictionary_frame_witness :
  lookup3 (update_feature_dictionary example_has_calculator example_get_config
             ∅ 5 ["temperature"; "mean"]).1 5 "temperature" "quantile"
  = lookup3 (∅ : gmap Z (gmap string (gmap string (option (list (list string))))))
      5 "temperature" "quantile".
Proof.
  apply update_feature_dictionary_frame. right. right. cbn. congruence.
Defined.

(** A call that returns, made a second time with the same arguments,
    returns again and changes nothing. *)
Theorem update_feature_dictionary_idempotent {config : Type} `{EqDecision config}
    (has_calculator : string → bool)
    (get_config_from_string : list string → result (option config))
    d wl parts d' :
  update_feature_dictionary has_calculator get_config_from_string d wl parts
  = (d', Ok ()) →
  update_feature_dictionary has_calculator get_config_from_string d' wl parts
  = (d', Ok ()).
Proof.
  unfold update_feature_dictionary.
  destruct (parts !! 0%nat) as [kind|]; [| done].
  destruct (parts !! 1%nat) as [name|]; [| done].
  destruct (has_calculator name); cbn [negb]; [| done].
  assert (∀ entry, lookup3 d' wl kind name = Some entry →
                   ensure_kind d' wl kind = d') as Hens.
  { intros entry (kinds & calcs & Hw & Hk & _)%lookup3_Some_inv.
    by eapply ensure_kind_present. }
  destruct (get_config_from_string parts) as [[c|]|e]; [| | done].
  - destruct (lookup3 (ensure_kind d wl kind) wl kind name)
      as [[params|]|] eqn:Hl; [| done |].
    + case_decide as Hin.
      * intros [= <-]. rewrite (Hens _ Hl), Hl. by rewrite decide_True.
      * intros [= <-].
        rewrite (Hens _ (lookup3_store_eq _ _ _ _ _)), lookup3_store_eq.
        rewrite decide_True; [done |]. apply elem_of_app. right.
        by apply list_elem_of_singleton.
    + intros [= <-].
      rewrite (Hens _ (lookup3_store_eq _ _ _ _ _)), lookup3_store_eq.
      rewrite decide_True; [done |]. by apply list_elem_of_singleton.
  - intros [= <-].
    rewrite (Hens _ (lookup3_store_eq _ _ _ _ _)).
    by rewrite (store_same _ _ _ _ _ (lookup3_store_eq _ _ _ _ _)).
Qed.

Lemma update_feature_dictionary_idempotent_witness :
  update_feature_dictionary example_has_calculator example_get_config
    (update_feature_dictionary example_has_calculator example_get_config
       ∅ 5 ["temperature"; "quantile"; "q_0.5"]).1
    5 ["temperature"; "quantile"; "q_0.5"]
  = ((update_feature_dictionary example_has_calculator example_get_config
        ∅ 5 ["temperature"; "quantile"; "q_0.5"]).1, Ok ()).
Proof.
  apply (update_feature_dictionary_idempotent _ _ ∅). reflexivity.
Defined.

(** Once a calculator has the null entry of a name without parameters, a
    name with parameters for the same calculator makes the call raise a
    [TypeError], the dictionary unchanged. *)
Theorem update_feature_dictionary_null_entry {config : Type} `{EqDecision config}
    (has_calculator : string → bool)
    (get_config_from_string : list string → result (option config))
    d wl parts kind name c :
  parts !! 0%nat = Some kind → parts !! 1%nat = Some name →
  has_calculator name = true →
  get_config_from_string parts = Ok (Some c) →
  lookup3 d wl kind name = Some None →
  update_feature_dictionary has_calculator get_config_from_string d wl parts
  = (d, Raise (TypeError "argument of type 'NoneType' is not iterable")).
Proof.
  intros H0 H1 Hc Hcfg Hl. unfold update_feature_dictionary.
  rewrite H0, H1, Hc, Hcfg. cbn [negb].
  pose proof Hl as (kinds & calcs & Hw & Hk & _)%lookup3_Some_inv.
  by rewrite (ensure_kind_present _ _ _ _ _ Hw Hk), Hl.
Qed.

Lemma update_feature_dictionary_null_entry_witness :
  update_feature_dictionary example_has_calculator example_get_config
    {[ 5 := {[ "temperature" := {[ "quantile" := None ]} ]} ]}
    5 ["temperature"; "quantile"; "q_0.5"]
  = ({[ 5 := {[ "temperature" := {[ "quantile" := None ]} ]} ]},
     Raise (TypeError "argument of type 'NoneType' is not iterable")).
Proof.
  apply (update_feature_dictionary_null_entry _ _ _ 5 _ "temperature" "quantile"
           ["q_0.5"]); reflexivity.
Defined.

(** ** Building the two dictionaries *)

Section DeriveFacts.
Context {config : Type} `{EqDecision config}.
Variable has_calculator : string → bool.
Variable get_config_from_string : list string → result (option config).

Local Abbreviation feature_dict :=
  (gmap Z (gmap string (gmap string (option (list config))))).
Local Abbreviation update :=
  (update_feature_dictionary has_calculator get_config_from_string).
Local Abbreviation step :=
  (derive_step has_calculator get_config_from_string).
Local Abbreviation loop :=
  (derive_loop has_calculator get_config_from_string).

Lemma derive_step_ok_inv (a b a' b' : feature_dict) name :
  step (a, b) name = Ok (a', b') →
  ∃ info fd_parts,
    parse_feature_timeseries_parts name = Ok info
    ∧ update a (window_length info) (fts_parts info) = (a', Ok ())
    ∧ parse_feature_dynamics_parts name = Ok fd_parts
    ∧ update b (window_length info) fd_parts = (b', Ok ()).
Proof.
  unfold derive_step.
  destruct (parse_feature_timeseries_parts name) as [info|e]; [| done].
  destruct (update a _ _) as [a1 [[]|e]] eqn:Ha; [| done].
  destruct (parse_feature_dynamics_parts name) as [fd_parts|e]; [| done].
  destruct (update b _ _) as [b1 [[]|e]] eqn:Hb; [| done].
  intros [= <- <-]. by exists info, fd_parts.
Qed.

Lemma derive_loop_cons_inv mappings name rest result :
  loop mappings (name :: rest) = Ok result →
  ∃ mappings', step mappings name = Ok mappings' ∧ loop mappings' rest = Ok result.
Proof.
  cbn [derive_loop]. destruct (step mappings name) as [m'|e]; [| done]. eauto.
Qed.

Lemma decoded_window_lengths_cons name info rest :
  parse_feature_timeseries_parts name = Ok info →
  decoded_window_lengths (name :: rest)
  = {[window_length info]} ∪ decoded_window_lengths rest.
Proof. intros Hp. unfold decoded_window_lengths. cbn. by rewrite Hp. Qed.

Lemma update_ok_dom (d d' : feature_dict) wl parts :
  update d wl parts = (d', Ok ()) → dom d' = {[wl]} ∪ dom d.
Proof.
  intros Hu.
  assert ((update d wl parts).2 = Ok ()) as Hok by by rewrite Hu.
  apply update_ok_parts in Hok as (kind & name & H0 & H1 & _).
  rewrite <- (dom_update has_calculator get_config_from_string d wl parts).
  - by rewrite Hu.
  - destruct parts as [|? [|? ?]]; cbn in *; [done | done | lia].
Qed.

Lemma derive_loop_dom names (a b fts fd : feature_dict) :
  loop (a, b) names = Ok (fts, fd) →
  dom fts = dom a ∪ decoded_window_lengths names
  ∧ dom fd = dom b ∪ decoded_window_lengths names.
Proof.
  revert a b. induction names as [|name rest IH]; intros a b.
  - intros [= <- <-]. unfold decoded_window_lengths. cbn. set_solver.
  - intros ([a' b'] & Hs & Hl)%derive_loop_cons_inv.
    apply derive_step_ok_inv in Hs as (info & fd_parts & Hp & Ha & _ & Hb).
    apply IH in Hl as [-> ->].
    rewrite (decoded_window_lengths_cons _ _ _ Hp).
    rewrite (update_ok_dom _ _ _ _ Ha), (update_ok_dom _ _ _ _ Hb).
    set_solver.
Qed.

Lemma derive_loop_names names (a b : feature_dict) result name :
  loop (a, b) names = Ok result → name ∈ names →
  ∃ info fd_parts fts_calc fd_calc,
    parse_feature_timeseries_parts name = Ok info
    ∧ parse_feature_dynamics_parts name = Ok fd_parts
    ∧ fts_parts info !! 1%nat = Some fts_calc
    ∧ has_calculator fts_calc = true
    ∧ fd_parts !! 1%nat = Some fd_calc
    ∧ has_calculator fd_calc = true.
Proof.
  revert a b. induction names as [|n rest IH]; intros a b Hl Hin.
  - by apply elem_of_nil in Hin.
  - apply derive_loop_cons_inv in Hl as ([a' b'] & Hs & Hl).
    apply elem_of_cons in Hin as [-> | Hin]; [| by eapply IH].
    apply derive_step_ok_inv in Hs as (info & fd_parts & Hp & Ha & Hfd & Hb).
    assert ((update a (window_length info) (fts_parts info)).2 = Ok ()) as Hoa
      by by rewrite Ha.
    assert ((update b (window_length info) fd_parts).2 = Ok ()) as Hob
      by by rewrite Hb.
    apply update_ok_parts in Hoa as (k1 & c1 & _ & H1 & Hc1).
    apply update_ok_parts in Hob as (k2 & c2 & _ & H2 & Hc2).
    by exists info, fd_parts, c1, c2.
Qed.

Lemma ensure_kind_empty wl kind :
  ensure_kind (∅ : feature_dict) wl kind = {[wl := {[kind := ∅]}]}.
Proof.
  unfold ensure_kind. rewrite lookup_empty, lookup_insert_eq. simpl.
  by rewrite lookup_empty, insert_insert_eq, !insert_empty.
Qed.

Lemma store_first wl kind name entry :
  store ({[wl := {[kind := ∅]}]} : feature_dict) wl kind name entry
  = {[wl := {[kind := {[name := entry]}]}]}.
Proof.
  unfold store. rewrite lookup_singleton_eq. simpl.
  rewrite lookup_singleton_eq. simpl.
  by rewrite insert_empty, !insert_singleton_eq.
Qed.

(** The first call on an empty dictionary. *)
Lemma update_empty wl parts (d' : feature_dict) :
  update ∅ wl parts = (d', Ok ()) →
  ∃ kind name cfg,
    parts !! 0%nat = Some kind ∧ parts !! 1%nat = Some name
    ∧ get_config_from_string parts = Ok cfg
    ∧ d' = {[wl := {[kind := {[name := first_entry cfg]}]}]}.
Proof.
  unfold update_feature_dictionary.
  destruct (parts !! 0%nat) as [kind|]; [| done].
  destruct (parts !! 1%nat) as [name|]; [| done].
  destruct (has_calculator name); cbn [negb]; [| done].
  rewrite ensure_kind_empty.
  assert (lookup3 ({[wl := {[kind := ∅]}]} : feature_dict) wl kind name = None)
    as ->.
  { unfold lookup3. rewrite lookup_singleton_eq. simpl.
    rewrite lookup_singleton_eq. simpl. apply lookup_empty. }
  destruct (get_config_from_string parts) as [[c|]|e]; [| | done];
    rewrite store_first; intros [= <-]; by eexists kind, name, _.
Qed.

End DeriveFacts.

(** When [derive_features_dictionaries] returns, the two dictionaries have
    the same window lengths as keys: those the names decode to. *)
Theorem derive_features_dictionaries_window_lengths
    {config : Type} `{EqDecision config}
    (has_calculator : string → bool)
    (get_config_from_string : list string → result (option config))
    feature_names fts_mapping fd_mapping :
  derive_features_dictionaries has_calculator get_config_from_string
    feature_names = Ok (fts_mapping, fd_mapping) →
  dom fts_mapping = decoded_window_lengths feature_names
  ∧ dom fd_mapping = decoded_window_lengths feature_names.
Proof.
  intros [-> ->]%derive_loop_dom. rewrite dom_empty_L. set_solver.
Qed.

Lemma derive_features_dictionaries_window_lengths_witness :
  dom ({[5 := {[ "temperature" := {[ "quantile" := Some [["q_0.5"]] ]} ]} ]}
       : gmap Z (gmap string (gmap string (option (list (list string))))))
  = decoded_window_lengths ["temperature||quantile|q_0.5@window_5__mean"]
  ∧ dom ({[5 := {[ "temperature||quantile|q_0.5@window_5"
                   := {[ "mean" := None ]} ]} ]}
         : gmap Z (gmap string (gmap string (option (list (list string))))))
    = decoded_window_lengths ["temperature||quantile|q_0.5@window_5__mean"].
Proof.
  apply (derive_features_dictionaries_window_lengths
           example_has_calculator example_get_config).
  vm_compute. reflexivity.
Defined.

(** [derive_features_dictionaries] returns only if every name of the list
    decodes, on the side of the feature time series and on the side of the
    feature dynamic, and names a known calculator on both sides. *)
Theorem derive_features_dictionaries_all_names
    {config : Type} `{EqDecision config}
    (has_calculator : string → bool)
    (get_config_from_string : list string → result (option config))
    feature_names mappings name :
  derive_features_dictionaries has_calculator get_config_from_string
    feature_names = Ok mappings →
  name ∈ feature_names →
  ∃ info fd_parts fts_calc fd_calc,
    parse_feature_timeseries_parts name = Ok info
    ∧ parse_feature_dynamics_parts name = Ok fd_parts
    ∧ fts_parts info !! 1%nat = Some fts_calc
    ∧ has_calculator fts_calc = true
    ∧ fd_parts !! 1%nat = Some fd_calc
    ∧ has_calculator fd_calc = true.
Proof. apply derive_loop_names. Qed.

Lemma derive_features_dictionaries_all_names_witness :
  ∃ info fd_parts fts_calc fd_calc,
    parse_feature_timeseries_parts "temperature||quantile|q_0.5@window_5__mean"
    = Ok info
    ∧ parse_feature_dynamics_parts "temperature||quantile|q_0.5@window_5__mean"
      = Ok fd_parts
    ∧ fts_parts info !! 1%nat = Some fts_calc
    ∧ example_has_calculator fts_calc = true
    ∧ fd_parts !! 1%nat = Some fd_calc
    ∧ example_has_calculator fd_calc = true.
Proof.
  eapply (derive_features_dictionaries_all_names
            example_has_calculator example_get_config
            ["temperature||quantile|q_0.5@window_5__mean"]).
  - vm_compute. reflexivity.
  - apply list_elem_of_here.
Defined.

(** On a single name, as [interpret_feature_dynamic] calls it,
    [derive_features_dictionaries] returns two dictionaries of one window
    length, one column and one calculator each: the decoded window length,
    then the first and the second part of each side, then the first entry
    for the parameters of that side. *)
Theorem derive_features_dictionaries_single
    {config : Type} `{EqDecision config}
    (has_calculator : string → bool)
    (get_config_from_string : list string → result (option config))
    name fts_mapping fd_mapping :
  derive_features_dictionaries has_calculator get_config_from_string [name]
  = Ok (fts_mapping, fd_mapping) →
  ∃ info fd_parts kind calc cfg fd_kind fd_calc fd_cfg,
    parse_feature_timeseries_parts name = Ok info
    ∧ parse_feature_dynamics_parts name = Ok fd_parts
    ∧ fts_parts info !! 0%nat = Some kind
    ∧ fts_parts info !! 1%nat = Some calc
    ∧ get_config_from_string (fts_parts info) = Ok cfg
    ∧ fd_parts !! 0%nat = Some fd_kind
    ∧ fd_parts !! 1%nat = Some fd_calc
    ∧ get_config_from_string fd_parts = Ok fd_cfg
    ∧ fts_mapping
      = {[window_length info := {[kind := {[calc := first_entry cfg]}]}]}
    ∧ fd_mapping
      = {[window_length info := {[fd_kind := {[fd_calc := first_entry fd_cfg]}]}]}.
Proof.
  unfold derive_features_dictionaries.
  intros ([a b] & Hs & [= -> ->])%derive_loop_cons_inv.
  apply derive_step_ok_inv in Hs as (info & fd_parts & Hp & Ha & Hfd & Hb).
  apply update_empty in Ha as (kind & calc & cfg & H0 & H1 & Hc & ->).
  apply update_empty in Hb as (fd_kind & fd_calc & fd_cfg & H0' & H1' & Hc' & ->).
  by exists info, fd_parts, kind, calc, cfg, fd_kind, fd_calc, fd_cfg.
Qed.

Lemma derive_features_dictionaries_single_witness :
  ∃ info fd_parts kind calc cfg fd_kind fd_calc fd_cfg,
    parse_feature_timeseries_parts "temperature||quantile|q_0.5@window_5__mean"
    = Ok info
    ∧ parse_feature_dynamics_parts "temperature||quantile|q_0.5@window_5__mean"
      = Ok fd_parts
    ∧ fts_parts info !! 0%nat = Some kind
    ∧ fts_parts info !! 1%nat = Some calc
    ∧ example_get_config (fts_parts info) = Ok cfg
    ∧ fd_parts !! 0%nat = Some fd_kind
    ∧ fd_parts !! 1%nat = Some fd_calc
    ∧ example_get_config fd_parts = Ok fd_cfg
    ∧ ({[5 := {[ "temperature" := {[ "quantile" := Some [["q_0.5"]] ]} ]} ]}
       : gmap Z (gmap string (gmap string (option (list (list string))))))
      = {[window_length info := {[kind := {[calc := first_entry cfg]}]}]}
    ∧ ({[5 := {[ "temperature||quantile|q_0.5@window_5" := {[ "mean" := None ]} ]} ]}
       : gmap Z (gmap string (gmap string (option (list (list string))))))
      = {[window_length info := {[fd_kind := {[fd_calc := first_entry fd_cfg]}]}]}.
Proof.
  apply (derive_features_dictionaries_single
           example_has_calculator example_get_config).
  vm_compute. reflexivity.
Defined.

(** ** A name that is only a window token *)

Lemma fts_tokens_window_only ds fd :
  all_digits ds = true → ds ≠ "" →
  fts_tokens ("window_" +:+ ds +:+ "__" +:+ fd) = ["window_" +:+ ds].
Proof.
  intros Hd Hne.
  pose proof (window_token_one_segment ds Hd) as Hone. unfold one_segment in Hone.
  assert (PyStr.split "__" (("window_" +:+ ds) +:+ "__" +:+ fd)
          = ("window_" +:+ ds) :: PyStr.split "__" fd) as Hs.
  { rewrite split_app_sep_gen, Hone; [done |].
    rewrite ends_with_underscore_app by done.
    apply ends_with_underscore_absent. by apply (all_digits_absent "_"). }
  rewrite string_app_assoc in Hs.
  unfold fts_tokens. rewrite Hs. cbn [hd].
  rewrite (replace_absent "|" "|") by by apply window_tag_absent.
  rewrite (replace_absent "|" "") by by apply window_tag_absent.
  by rewrite (replace_absent "@" "") by by apply window_tag_absent.
Qed.

(** The test for one part lets zero parts through: a name whose first
    segment is just [window_<N>] decodes to no fts part at all, and
    [derive_features_dictionaries] then raises an [IndexError]. *)
Theorem window_only_name {config : Type} `{EqDecision config}
    (has_calculator : string → bool)
    (get_config_from_string : list string → result (option config))
    (N : Z) (fd : string) (rest : list string) :
  0 ≤ N →
  parse_feature_timeseries_parts ("window_" +:+ PyStr.str N +:+ "__" +:+ fd)
  = Ok (FtsInformation N [])
  ∧ derive_features_dictionaries has_calculator get_config_from_string
      (("window_" +:+ PyStr.str N +:+ "__" +:+ fd) :: rest)
    = Raise (IndexError "list index out of range").
Proof.
  intros HN.
  assert (parse_feature_timeseries_parts
            ("window_" +:+ PyStr.str N +:+ "__" +:+ fd)
          = Ok (FtsInformation N [])) as Hp.
  { unfold parse_feature_timeseries_parts.
    rewrite fts_tokens_window_only
      by (by apply all_digits_str || apply str_nonempty).
    cbn [List.last List.removelast length Nat.eqb].
    rewrite window_token_contains, window_token_digits, int_str
      by by apply all_digits_str.
    done. }
  split; [done |].
  unfold derive_features_dictionaries. cbn [derive_loop derive_step].
  rewrite Hp. done.
Qed.

Lemma window_only_name_witness :
  parse_feature_timeseries_parts ("window_" +:+ PyStr.str 3 +:+ "__" +:+ "mean")
  = Ok (FtsInformation 3 [])
  ∧ derive_features_dictionaries example_has_calculator example_get_config
      (("window_" +:+ PyStr.str 3 +:+ "__" +:+ "mean") :: [])
    = Raise (IndexError "list index out of range").
Proof. apply window_only_name. lia. Defined.

(** ** More on the stage-1 completeness filter *)

Section CompletenessMore.
Context {value : Type}.
Variable isnull : value → bool.

Lemma filter_all {A} (P : A → Prop) `{∀ x, Decision (P x)} (l : list A) :
  (∀ x, x ∈ l → P x) → filter P l = l.
Proof.
  induction l as [|x l IH]; intros Hall; [done |].
  rewrite filter_cons, decide_True by (apply Hall; by left).
  rewrite IH; [done |]. intros y Hy. apply Hall. by right.
Qed.

Lemma filter_fmap_iff {A B} (f : A → B) (P : A → Prop) (Q : B → Prop)
    `{∀ x, Decision (P x)} `{∀ y, Decision (Q y)} (l : list A) :
  (∀ x, x ∈ l → Q (f x) ↔ P x) →
  filter Q (f <$> l) = f <$> filter P l.
Proof.
  induction l as [|x l IH]; intros Hall; [done |].
  rewrite fmap_cons, !filter_cons.
  assert (Q (f x) ↔ P x) as Hx by (apply Hall; by left).
  assert (filter Q (f <$> l) = f <$> filter P l) as ->.
  { apply IH. intros y Hy. apply Hall. by right. }
  destruct (decide (P x)) as [Hp | Hp].
  - by rewrite decide_True by by apply Hx.
  - by rewrite decide_False by by rewrite Hx.
Qed.

Section OneTable.
Context {R : Type} (kind : R → string) (val : R → value).

Lemma drop_incomplete_complete rows r :
  r ∈ drop_incomplete isnull kind val rows → isnull (val r) = false.
Proof. intros [Hr Hall]%elem_of_drop_incomplete. by apply Hall. Qed.

Lemma drop_incomplete_nothing_missing rows :
  (∀ r, r ∈ rows → isnull (val r) = false) →
  drop_incomplete isnull kind val rows = rows.
Proof.
  intros Hall. unfold drop_incomplete. apply filter_all.
  intros r Hr. rewrite elem_of_target_list.
  intros (r' & Hr' & _ & Hn). rewrite (Hall r' Hr') in Hn. done.
Qed.

End OneTable.
End CompletenessMore.

(** What the stage-1 filter leaves has no missing value; the filter changes
    nothing in a table without missing value, so applying it twice is
    applying it once; and the rows it keeps stay in their order. *)
Theorem drop_incomplete_idempotent {value R : Type} (isnull : value → bool)
    (kind : R → string) (val : R → value) (rows : list R) :
  (∀ r, r ∈ drop_incomplete isnull kind val rows → isnull (val r) = false)
  ∧ drop_incomplete isnull kind val (drop_incomplete isnull kind val rows)
    = drop_incomplete isnull kind val rows
  ∧ drop_incomplete isnull kind val rows `sublist_of` rows.
Proof.
  split_and!.
  - apply drop_incomplete_complete.
  - apply drop_incomplete_nothing_missing, drop_incomplete_complete.
  - apply sublist_filter.
Qed.

(** The pandas branch and the dask branch of stage 1 give the same table
    when no raw feature name holds the character ["|"]: renaming then keeps
    distinct names distinct. *)
Theorem stage1_branches_agree {id value : Type} (isnull : value → bool)
    (rows : list (@stage1_row id value)) (wl : Z) :
  (∀ r, r ∈ rows → PyStr.contains "|" (s1_kind r) = false) →
  feature_timeseries_dask isnull rows wl
  = feature_timeseries_pandas isnull rows wl.
Proof.
  intros Hpipe. unfold feature_timeseries_dask, feature_timeseries_pandas.
  unfold drop_incomplete at 1. unfold drop_incomplete at 1.
  apply filter_fmap_iff. intros r Hr.
  apply not_iff_compat. rewrite !elem_of_target_list. split.
  - intros (o & (r' & -> & Hr')%list_elem_of_fmap & Hk & Hn).
    exists r'. split_and!; [done | | done].
    apply (clean_inj _ _ wl); auto.
  - intros (r' & Hr' & Hk & Hn). exists (flatten_row wl r').
    split_and!; [apply list_elem_of_fmap; by eauto | | done].
    cbn. by rewrite Hk.
Qed.

Lemma stage1_branches_agree_witness :
  feature_timeseries_dask (λ v : option Z, bool_decide (v = None))
    [Stage1Row (1%nat, 0) "x__mean" (Some 2);
     Stage1Row (1%nat, 1) "x__mean" None;
     Stage1Row (1%nat, 0) "x__sum" (Some 4)] 5
  = feature_timeseries_pandas (λ v : option Z, bool_decide (v = None))
      [Stage1Row (1%nat, 0) "x__mean" (Some 2);
       Stage1Row (1%nat, 1) "x__mean" None;
       Stage1Row (1%nat, 0) "x__sum" (Some 4)] 5.
Proof.
  apply stage1_branches_agree. intros r Hr.
  repeat (apply elem_of_cons in Hr as [-> | Hr]; [reflexivity |]).
  by apply elem_of_nil in Hr.
Defined.

(** With that character in a name the two branches can differ: the dask
    branch drops a complete feature whose new name is also the new name of
    an incomplete one. *)
Example stage1_branches_differ :
  let rows := [Stage1Row (1%nat, 0) "a__b__c" (None : option Z);
               Stage1Row (1%nat, 0) "a__b|c" (Some 4)] in
  feature_timeseries_pandas (λ v, bool_decide (v = None)) rows 5
  = [FtsRow 1%nat 0 "a||b|c@window_5" (Some 4)]
  ∧ feature_timeseries_dask (λ v, bool_decide (v = None)) rows 5 = [].
Proof. split; reflexivity. Qed.

(** ** The stage-2 completeness filter *)

(** The two branches of the last step keep the same columns, those without
    a missing value, in their order; filtering again changes nothing. *)
Theorem stage2_branches_agree {value : Type} (isnull : value → bool)
    (X : list (string * list value)) :
  drop_columns_dask isnull X = dropna_columns isnull X
  ∧ (∀ col v, col ∈ dropna_columns isnull X → v ∈ col.2 → isnull v = false)
  ∧ dropna_columns isnull (dropna_columns isnull X) = dropna_columns isnull X.
Proof.
  split_and!.
  - unfold drop_columns_dask, dropna_columns, cols_to_keep.
    induction X as [|col X IH]; [done |].
    rewrite fmap_cons, filter_cons. cbn [select_columns]. rewrite IH.
    destruct (existsb isnull col.2); [done |].
    by rewrite bool_decide_eq_true_2, decide_True.
  - intros col v [Hc _]%list_elem_of_filter Hv.
    apply not_true_is_false. intros Hn.
    assert (existsb isnull col.2 = true); [| congruence].
    apply existsb_exists. exists v. split; [by apply list_elem_of_In | done].
  - unfold dropna_columns. apply filter_all.
    by intros col [Hc _]%list_elem_of_filter.
Qed.

(** ** The names of the derived series *)

(** In both branches every kind of the derived feature time series is an
    encoded name: it holds no double underscore, so that the name of a
    feature dynamic computed on it splits after it. *)
Theorem stage1_kinds_one_segment {id value : Type} (isnull : value → bool)
    (rows : list (@stage1_row id value)) (wl : Z) (out : fts_row) (fd : string) :
  out ∈ feature_timeseries_pandas isnull rows wl
  ∨ out ∈ feature_timeseries_dask isnull rows wl →
  PyStr.split "__" (fts_kind out) = [fts_kind out]
  ∧ parse_feature_dynamics_parts (fts_kind out +:+ "__" +:+ fd)
    = Ok (fts_kind out :: PyStr.split "__" fd).
Proof.
  intros Hout.
  assert (∃ r, out = flatten_row wl r) as [r ->].
  { destruct Hout as [Hout | Hout].
    - apply list_elem_of_fmap in Hout as (r & -> & _). by exists r.
    - apply elem_of_drop_incomplete in Hout as [Hout _].
      apply list_elem_of_fmap in Hout as (r & -> & _). by exists r. }
  cbn [fts_kind flatten_row].
  destruct (clean_one_segment (s1_kind r) wl) as [Hone Hfull].
  split; [done |]. unfold parse_feature_dynamics_parts. rewrite Hfull.
  pose proof (split_nonempty "_" fd) as Hne. unfold dbl in Hne.
  by destruct (PyStr.split "__" fd).
Qed.

Lemma stage1_kinds_one_segment_witness :
  PyStr.split "__" (fts_kind (FtsRow 1%nat 0 "x||sum@window_5" (Some 4)))
  = [fts_kind (FtsRow 1%nat 0 "x||sum@window_5" (Some 4))]
  ∧ parse_feature_dynamics_parts
      (fts_kind (FtsRow 1%nat 0 "x||sum@window_5" (Some 4)) +:+ "__" +:+ "mean")
    = Ok (fts_kind (FtsRow 1%nat 0 "x||sum@window_5" (Some 4))
          :: PyStr.split "__" "mean").
Proof.
  apply (stage1_kinds_one_segment (λ v : option Z, bool_decide (v = None))
           [Stage1Row (1%nat, 0) "x__sum" (Some 4)] 5).
  left. apply list_elem_of_here.
Defined.
